(** * Chemfiles C API: error boundary and unit cell

    A shallow embedding of [src/capi/logging.cpp] (status-code lookup and the
    last-error state), of the exception hierarchy of [chemharp/Error.hpp],
    and of the unit-cell entry points exercised by [tests/capi/cell.cpp].

    Doubles are idealised as real numbers: rounding error, overflow and NaN
    are outside the model.  [Binary64] alone computes on IEEE doubles, to
    run the orthorhombic wrap with the arithmetic of the machine. *)

From Stdlib Require Import Floats ZArith String List Reals Lra Lia.
From stdpp Require Import base gmap strings.

#[local] Set Warnings "-inexact-float".

Local Open Scope Z_scope.

(** ** Status codes *)

(** Modelled from the spec: the enumeration of status codes lives in
    [chemfiles.h], which is not among the sources.  The enumerators are the
    seven keys of [ERROR_MESSAGES] in [logging.cpp]. *)
Inductive chfl_status : Set :=
  | CHFL_SUCCESS
  | CHFL_MEMORY_ERROR
  | CHFL_FILE_ERROR
  | CHFL_FORMAT_ERROR
  | CHFL_SELECTION_ERROR
  | CHFL_GENERIC_ERROR
  | CHFL_CXX_ERROR.

Definition all_statuses : list chfl_status :=
  [CHFL_SUCCESS; CHFL_MEMORY_ERROR; CHFL_FILE_ERROR; CHFL_FORMAT_ERROR;
   CHFL_SELECTION_ERROR; CHFL_GENERIC_ERROR; CHFL_CXX_ERROR].

Module Strerror.
Section WithCodes.

(** The integer value of each enumerator ([chemfiles.h] is not among the
    sources, so the numbering is a parameter). *)
Variable code_of : chfl_status -> Z.

(** The initializer list of [ERROR_MESSAGES], in source order. *)
Definition ERROR_MESSAGES_init : list (Z * string) :=
  [ (code_of CHFL_SUCCESS, "operation was sucessfull"%string);
    (code_of CHFL_MEMORY_ERROR, "memory allocation error."%string);
    (code_of CHFL_FILE_ERROR, "system error while reading a file"%string);
    (code_of CHFL_FORMAT_ERROR, "error while parsing a file"%string);
    (code_of CHFL_SELECTION_ERROR, "error in selection parsing or evaluation"%string);
    (code_of CHFL_GENERIC_ERROR, "unknown error from chemfiles library"%string);
    (code_of CHFL_CXX_ERROR, "error from the C++ standard library"%string) ].

(** [const std::map<int, std::string> ERROR_MESSAGES = {...}]: the
    constructor inserts the pairs in order and an insertion never replaces
    an existing key, which is [list_to_map] (the head of the list wins). *)
Definition ERROR_MESSAGES : gmap Z string := list_to_map ERROR_MESSAGES_init.

(** [const char* chfl_strerror(int code)] *)
Definition chfl_strerror (code : Z) : string :=
  match ERROR_MESSAGES !! code with
  | Some message => message
  | None => ""%string
  end.

End WithCodes.

(** The text listed for each enumerator. *)
Definition message_of (s : chfl_status) : string :=
  match s with
  | CHFL_SUCCESS => "operation was sucessfull"
  | CHFL_MEMORY_ERROR => "memory allocation error."
  | CHFL_FILE_ERROR => "system error while reading a file"
  | CHFL_FORMAT_ERROR => "error while parsing a file"
  | CHFL_SELECTION_ERROR => "error in selection parsing or evaluation"
  | CHFL_GENERIC_ERROR => "unknown error from chemfiles library"
  | CHFL_CXX_ERROR => "error from the C++ standard library"
  end.

(** A concrete numbering to run the lookup with: the enumerators in source
    order, counted from 0. *)
Definition source_order (s : chfl_status) : Z :=
  match s with
  | CHFL_SUCCESS => 0
  | CHFL_MEMORY_ERROR => 1
  | CHFL_FILE_ERROR => 2
  | CHFL_FORMAT_ERROR => 3
  | CHFL_SELECTION_ERROR => 4
  | CHFL_GENERIC_ERROR => 5
  | CHFL_CXX_ERROR => 6
  end.

(** The first enumerator, in the order of the initializer list, whose value
    is [code]. *)
Definition first_with_code (code_of : chfl_status -> Z) (code : Z) : option chfl_status :=
  find (fun s => Z.eqb (code_of s) code) all_statuses.

End Strerror.

(** ** Exceptions *)

(** [chemharp/Error.hpp]: the library's exception classes.  [Error] derives
    from [std::runtime_error]; the other four derive from [Error]. *)
Inductive exception_class : Set :=
  | Error
  | FileError
  | MemoryError
  | FormatError
  | PluginError.

(** The classes a handler can name: the five of [Error.hpp] and the two
    standard classes above them, [std::runtime_error] and its base
    [std::exception]. *)
Inductive handler_class : Set :=
  | StdException
  | StdRuntimeError
  | Library (c : exception_class).

(** [struct Error : public std::runtime_error], and
    [struct FileError : public Error] like the three other derived
    classes. *)
Definition direct_base (c : handler_class) : option handler_class :=
  match c with
  | StdException => None
  | StdRuntimeError => Some StdException
  | Library Error => Some StdRuntimeError
  | Library _ => Some (Library Error)
  end.

Definition class_index (c : handler_class) : nat :=
  match c with
  | StdException => 0
  | StdRuntimeError => 1
  | Library Error => 2
  | Library FileError => 3
  | Library MemoryError => 4
  | Library FormatError => 5
  | Library PluginError => 6
  end.

Definition same_class (a b : handler_class) : bool :=
  Nat.eqb (class_index a) (class_index b).

(** [thrown] is [handler] or reaches it by a chain of bases of at most
    [fuel] links. *)
Fixpoint is_a (fuel : nat) (thrown handler : handler_class) : bool :=
  same_class thrown handler ||
  match fuel with
  | O => false
  | S n =>
      match direct_base thrown with
      | Some b => is_a n b handler
      | None => false
      end
  end.

(** [catch (const handler&)] matches an object of class [thrown] when
    [thrown] is [handler] or derives from it; seven classes bound the
    chain. *)
Definition catches (handler thrown : handler_class) : bool := is_a 7 thrown handler.

(** The handlers of a try block are tried in the order they are written;
    the first that matches runs. *)
Definition select_handler (handlers : list handler_class) (thrown : handler_class)
    : option handler_class :=
  find (fun h => catches h thrown) handlers.

(** Modelled from the spec: the failure taxonomy of section 7.  The catch
    clauses that classify a thrown object are in [chemfiles/capi.hpp], which
    is not among the sources. *)
Inductive failure_kind : Set :=
  | Memory
  | FileAccess
  | Format
  | Selection
  | InvalidOperation
  | Generic
  | Internal.

(** A thrown object: its kind and the text of [what()]. *)
Record exception : Set := mk_exception { kind : failure_kind; what : string }.

(** A handler for the base class catches every derived class without a
    handler of its own: a [PluginError] is reported as a plain [Error]. *)
Definition kind_of_class (c : exception_class) : failure_kind :=
  match c with
  | Error => Generic
  | FileError => FileAccess
  | MemoryError => Memory
  | FormatError => Format
  | PluginError => Generic
  end.

Definition raise_class (c : exception_class) (message : string) : exception :=
  mk_exception (kind_of_class c) message.

(** Modelled from the spec: the status code returned for each failure kind.
    The fixed set of codes has no member for [InvalidOperation]; it falls to
    the catch-all [CHFL_GENERIC_ERROR]. *)
Definition status_of_kind (k : failure_kind) : chfl_status :=
  match k with
  | Memory => CHFL_MEMORY_ERROR
  | FileAccess => CHFL_FILE_ERROR
  | Format => CHFL_FORMAT_ERROR
  | Selection => CHFL_SELECTION_ERROR
  | InvalidOperation => CHFL_GENERIC_ERROR
  | Generic => CHFL_GENERIC_ERROR
  | Internal => CHFL_CXX_ERROR
  end.

(** The result of code that may throw. *)
Inductive outcome (A : Type) : Type :=
  | Ok (a : A)
  | Throw (e : exception).
Arguments Ok {A} a.
Arguments Throw {A} e.

(** ** Geometry on three doubles *)

Module Geometry.
Local Open Scope R_scope.

(** [chfl_vector3d]: three doubles. *)
Record Vector3D : Type := vector3d { vx : R; vy : R; vz : R }.

(** Three rows of three doubles, row-major. *)
Record Matrix3D : Type := matrix3d { row_a : Vector3D; row_b : Vector3D; row_c : Vector3D }.

Definition dot (u v : Vector3D) : R := vx u * vx v + vy u * vy v + vz u * vz v.

Definition cross (u v : Vector3D) : Vector3D :=
  vector3d (vy u * vz v - vz u * vy v)
           (vz u * vx v - vx u * vz v)
           (vx u * vy v - vy u * vx v).

Definition norm (v : Vector3D) : R := sqrt (dot v v).

Definition scale (k : R) (v : Vector3D) : Vector3D :=
  vector3d (k * vx v) (k * vy v) (k * vz v).

(** Left-multiplication of a column vector by a matrix. *)
Definition mat_vec (m : Matrix3D) (v : Vector3D) : Vector3D :=
  vector3d (dot (row_a m) v) (dot (row_b m) v) (dot (row_c m) v).

(** Scalar triple product of the rows. *)
Definition determinant (m : Matrix3D) : R := dot (row_a m) (cross (row_b m) (row_c m)).

(** Inverse by the adjugate: the columns of the inverse are the cross
    products of the rows, divided by the determinant. *)
Definition inverse (m : Matrix3D) : Matrix3D :=
  let d := determinant m in
  let bc := cross (row_b m) (row_c m) in
  let ca := cross (row_c m) (row_a m) in
  let ab := cross (row_a m) (row_b m) in
  matrix3d (vector3d (vx bc / d) (vx ca / d) (vx ab / d))
           (vector3d (vy bc / d) (vy ca / d) (vy ab / d))
           (vector3d (vz bc / d) (vz ca / d) (vz ab / d)).

Definition diagonal (l : Vector3D) : Matrix3D :=
  matrix3d (vector3d (vx l) 0 0) (vector3d 0 (vy l) 0) (vector3d 0 0 (vz l)).

Definition is_diagonal (m : Matrix3D) : Prop :=
  vy (row_a m) = 0 /\ vz (row_a m) = 0 /\
  vx (row_b m) = 0 /\ vz (row_b m) = 0 /\
  vx (row_c m) = 0 /\ vy (row_c m) = 0.

Definition eq0 (x : R) : bool := if Req_dec_T x 0 then true else false.
Definition le_b (x y : R) : bool := if Rle_dec x y then true else false.
Definition lt_b (x y : R) : bool := if Rlt_dec x y then true else false.

Definition is_diagonal_b (m : Matrix3D) : bool :=
  eq0 (vy (row_a m)) && eq0 (vz (row_a m)) &&
  eq0 (vx (row_b m)) && eq0 (vz (row_b m)) &&
  eq0 (vx (row_c m)) && eq0 (vy (row_c m)).

(** [round] of [<cmath>]: nearest integer, halfway cases away from zero. *)
Definition round (x : R) : Z :=
  if Rle_dec 0 x then Int_part (x + / 2) else (- Int_part (- x + / 2))%Z.

(** A coordinate exactly halfway between two integers. *)
Definition halfway (f : R) : Prop := exists k : Z, f = IZR k + / 2.

Definition radians (deg : R) : R := deg * PI / 180.
Definition degrees (rad : R) : R := rad * 180 / PI.

(** Angle between two vectors, in degrees. *)
Definition angle (u v : Vector3D) : R :=
  degrees (acos (dot u v / (norm u * norm v))).

(** [tests/capi/cell.cpp], [approx_eq]: every entry of [A] is closer than
    [1e-10] to the entry of [B]. *)
Definition eps : R := 1e-10.

Definition approx_eq_row (a b : Vector3D) : bool :=
  lt_b (Rabs (vx a - vx b)) eps && lt_b (Rabs (vy a - vy b)) eps &&
  lt_b (Rabs (vz a - vz b)) eps.

Definition approx_eq (A B : Matrix3D) : bool :=
  approx_eq_row (row_a A) (row_a B) && approx_eq_row (row_b A) (row_b B) &&
  approx_eq_row (row_c A) (row_c B).

(** Every entry of [A] closer than [tol] to the entry of [B]. *)
Definition row_within (tol : R) (a b : Vector3D) : Prop :=
  Rabs (vx a - vx b) < tol /\ Rabs (vy a - vy b) < tol /\ Rabs (vz a - vz b) < tol.

Definition entries_within (tol : R) (A B : Matrix3D) : Prop :=
  row_within tol (row_a A) (row_a B) /\ row_within tol (row_b A) (row_b B) /\
  row_within tol (row_c A) (row_c B).

End Geometry.
Export Geometry.

(** ** The orthorhombic fast path on IEEE doubles *)

(** The same [round] and the same per-axis formula on binary64 numbers, to
    run the wrap test and the ties with the arithmetic of the machine. *)
Module Binary64.
Local Open Scope float_scope.

(** [round] of [<cmath>] on a double: the result is exact, halfway cases go
    away from zero, and a double with no fractional bits, an infinity or a
    NaN is returned as it is. *)
Definition round (x : float) : float :=
  match Prim2SF x with
  | S754_finite s m e =>
      if (0 <=? e)%Z then x
      else
        match Z.shiftr (Zpos m + Z.shiftl 1 (- e - 1)) (- e) with
        | Zpos n => SF2Prim (S754_finite s n 0)
        | _ => SF2Prim (S754_zero s)
        end
  | _ => x
  end.

Definition wrap_axis (v len : float) : float := v - len * round (v / len).

Definition wrap_orthorhombic (l v : float * float * float) : float * float * float :=
  (wrap_axis v.1.1 l.1.1, wrap_axis v.1.2 l.1.2, wrap_axis v.2 l.2).

Definition fractional_orthorhombic (l v : float * float * float) : float * float * float :=
  (v.1.1 / l.1.1, v.1.2 / l.1.2, v.2 / l.2).

End Binary64.

(** ** The unit cell *)

Module Cell.
Local Open Scope R_scope.

(** [chfl_cellshape], as the tests name its values: [CHFL_CELL_ORTHORHOMBIC],
    [CHFL_CELL_TRICLINIC], [CHFL_CELL_INFINITE]. *)
Inductive CellShape : Set := ORTHORHOMBIC | TRICLINIC | INFINITE.

(** Modelled from the spec: the class [UnitCell] is not among the sources.
    Section 3 gives its attributes: a 3x3 matrix whose rows are the lattice
    vectors, and a shape tag.  Lengths, angles and volume are derived. *)
Record UnitCell : Type := unit_cell { matrix : Matrix3D; shape : CellShape }.

Definition invalid_operation (message : string) : exception :=
  mk_exception InvalidOperation message.

(** Modelled from the spec: the derived attributes of section 3.  The
    lengths of the three lattice vectors. *)
Definition lengths (c : UnitCell) : Vector3D :=
  vector3d (norm (row_a (matrix c))) (norm (row_b (matrix c))) (norm (row_c (matrix c))).

(** Modelled from the spec: the angles between vector pairs, in degrees:
    alpha between b and c, beta between a and c, gamma between a and b. *)
Definition angles (c : UnitCell) : Vector3D :=
  vector3d (angle (row_b (matrix c)) (row_c (matrix c)))
           (angle (row_a (matrix c)) (row_c (matrix c)))
           (angle (row_a (matrix c)) (row_b (matrix c))).

(** Modelled from the spec: the scalar triple product of the lattice
    vectors, 0 for an infinite cell. *)
Definition volume (c : UnitCell) : R :=
  match shape c with
  | INFINITE => 0
  | _ => determinant (matrix c)
  end.

Definition negative_length (l : Vector3D) : bool :=
  lt_b (vx l) 0 || lt_b (vy l) 0 || lt_b (vz l) 0.

(** Modelled from the spec: negative lengths are reported, not clamped
    (section 7); [negative_length] is that test.  Degenerate geometry
    (section 4.2): angles summing to 360 or more, or to 0 or less, or any
    angle at most 0 or at least 180. *)
Definition degenerate (a : Vector3D) : bool :=
  le_b 360 (vx a + vy a + vz a) || le_b (vx a + vy a + vz a) 0 ||
  le_b (vx a) 0 || le_b 180 (vx a) ||
  le_b (vy a) 0 || le_b 180 (vy a) ||
  le_b (vz a) 0 || le_b 180 (vz a).

(** Modelled from the spec: the matrix built from lengths and angles.  The
    spec does not spell the construction out; this is the usual one, a
    along x and b in the xy plane, rows being the lattice vectors. *)
Definition lattice (l a : Vector3D) : Matrix3D :=
  let cos_alpha := cos (radians (vx a)) in
  let cos_beta := cos (radians (vy a)) in
  let cos_gamma := cos (radians (vz a)) in
  let sin_gamma := sin (radians (vz a)) in
  let y := (cos_alpha - cos_beta * cos_gamma) / sin_gamma in
  let z := sqrt (1 - cos_beta * cos_beta - y * y) in
  matrix3d (vector3d (vx l) 0 0)
           (vector3d (vy l * cos_gamma) (vy l * sin_gamma) 0)
           (vector3d (vz l * cos_beta) (vz l * y) (vz l * z)).

(** The Gram determinant of three unit vectors that make the angles [a]
    pairwise; such vectors exist when it is not negative. *)
Definition gram (a : Vector3D) : R :=
  let cos_alpha := cos (radians (vx a)) in
  let cos_beta := cos (radians (vy a)) in
  let cos_gamma := cos (radians (vz a)) in
  1 + 2 * cos_alpha * cos_beta * cos_gamma
    - cos_alpha * cos_alpha - cos_beta * cos_beta - cos_gamma * cos_gamma.

(** Modelled from the spec: construction from lengths alone gives an
    orthorhombic cell with a diagonal matrix. *)
Definition orthorhombic (l : Vector3D) : outcome UnitCell :=
  if negative_length l
  then Throw (invalid_operation "lengths of a cell can not be negative")
  else Ok (unit_cell (diagonal l) ORTHORHOMBIC).

(** Modelled from the spec: construction from lengths and angles gives a
    triclinic cell, unconditionally; degenerate geometry fails. *)
Definition triclinic (l a : Vector3D) : outcome UnitCell :=
  if negative_length l
  then Throw (invalid_operation "lengths of a cell can not be negative")
  else if degenerate a
  then Throw (invalid_operation "angles do not describe a cell")
  else Ok (unit_cell (lattice l a) TRICLINIC).

(** Modelled from the spec: setting lengths scales each lattice vector to
    its new length and keeps its direction; shape is not touched, and the
    only failure is the validation of the argument.  A null vector has no
    direction and stays null. *)
Definition rescale (len : R) (v : Vector3D) : Vector3D := scale (len / norm v) v.

Definition set_lengths (c : UnitCell) (l : Vector3D) : outcome UnitCell :=
  if negative_length l
  then Throw (invalid_operation "lengths of a cell can not be negative")
  else Ok (unit_cell (matrix3d (rescale (vx l) (row_a (matrix c)))
                               (rescale (vy l) (row_b (matrix c)))
                               (rescale (vz l) (row_c (matrix c))))
                     (shape c)).

(** Modelled from the spec: setting angles fails with an invalid operation
    unless the shape is triclinic; otherwise the matrix is rebuilt from the
    current lengths and the new angles. *)
Definition set_angles (c : UnitCell) (a : Vector3D) : outcome UnitCell :=
  match shape c with
  | TRICLINIC =>
      if degenerate a
      then Throw (invalid_operation "angles do not describe a cell")
      else Ok (unit_cell (lattice (lengths c) a) TRICLINIC)
  | _ => Throw (invalid_operation "can not set angles on a non-triclinic cell")
  end.

(** Modelled from the spec: switching to orthorhombic needs a matrix that
    is already diagonal; switching to triclinic or to infinite is a pure
    relabelling. *)
Definition set_shape (c : UnitCell) (s : CellShape) : outcome UnitCell :=
  match s with
  | ORTHORHOMBIC =>
      if is_diagonal_b (matrix c)
      then Ok (unit_cell (matrix c) ORTHORHOMBIC)
      else Throw (invalid_operation "can not set the shape to orthorhombic: the matrix is not diagonal")
  | _ => Ok (unit_cell (matrix c) s)
  end.

(** Modelled from the spec: fractional coordinates are the inverse of the
    lattice matrix applied to the vector. *)
Definition fractional (c : UnitCell) (v : Vector3D) : Vector3D :=
  mat_vec (inverse (matrix c)) v.

(** Remove the nearest integer from a fractional coordinate. *)
Definition reduce (f : R) : R := f - IZR (round f).

Definition reduced (f : Vector3D) : Vector3D :=
  vector3d (reduce (vx f)) (reduce (vy f)) (reduce (vz f)).

(** The orthorhombic fast path, one axis: v - L * round(v / L). *)
Definition wrap_axis (v len : R) : R := v - len * IZR (round (v / len)).

(** Modelled from the spec: the wrap algorithm of section 4.2.  To
    fractional coordinates, minus the nearest integer, back to Cartesian
    coordinates; per axis on an orthorhombic cell; the identity on an
    infinite cell. *)
Definition wrap (c : UnitCell) (v : Vector3D) : Vector3D :=
  match shape c with
  | INFINITE => v
  | ORTHORHOMBIC =>
      let l := lengths c in
      vector3d (wrap_axis (vx v) (vx l)) (wrap_axis (vy v) (vy l)) (wrap_axis (vz v) (vz l))
  | TRICLINIC =>
      mat_vec (matrix c) (reduced (fractional c v))
  end.




(** Modelled from the spec: the invariant of section 3 that ties the shape
    tag to the matrix: an orthorhombic cell has a diagonal matrix. *)
Definition cell_invariant (c : UnitCell) : Prop :=
  match shape c with
  | ORTHORHOMBIC => is_diagonal (matrix c)
  | _ => True
  end.

End Cell.
Export Cell.

(** ** The C interface: process state and the error boundary *)

Module Capi.

(** Modelled from the spec: [chemfiles/Logger.hpp] is not among the sources.
    Section 3 describes the sink: a level and exactly one destination. *)
Inductive LogLevel : Set := ERROR | WARNING | INFO | DEBUG | TRACE.

Inductive LogSink : Set :=
  | TO_STDOUT
  | TO_STDERR
  | TO_FILE (path : string)
  | SILENT
  | CALLBACK (callback : positive).

Record Logger : Set := mk_logger { log_level : LogLevel; log_sink : LogSink }.

(** Modelled from the spec: what a handle can point to.  A frame is an
    external collaborator; only its current cell is visible here. *)
Inductive object : Type :=
  | ObjCell (c : UnitCell)
  | ObjFrame (c : UnitCell).

(** A handle is a pointer: null or the address of an object. *)
Definition handle : Set := option positive.
Definition nullptr : handle := None.

(** Modelled from the spec: everything the entry points act on, except the
    last-error string: the log sink, the objects behind the handles, the
    allocation hook of the tests and the files that can be opened. *)
Record World : Type := mk_world {
  logger : Logger;
  heap : gmap positive object;
  fail_next : bool;
  writable : gset string
}.

(** [std::string chemfiles::CAPI_LAST_ERROR] and the rest of the process. *)
Record State : Type := mk_state { CAPI_LAST_ERROR : string; world : World }.

Definition set_logger (l : Logger) (w : World) : World :=
  mk_world l (heap w) (fail_next w) (writable w).
Definition set_heap (h : gmap positive object) (w : World) : World :=
  mk_world (logger w) h (fail_next w) (writable w).
Definition set_fail_next (b : bool) (w : World) : World :=
  mk_world (logger w) (heap w) b (writable w).

(** Code that may throw, over the world. *)
Definition comp (A : Type) : Type := World -> outcome A * World.

#[export] Instance comp_ret : MRet comp := fun A a w => (Ok a, w).
#[export] Instance comp_bind : MBind comp := fun A B f m w =>
  match m w with
  | (Ok a, w') => f a w'
  | (Throw e, w') => (Throw e, w')
  end.

Definition throw {A : Type} (e : exception) : comp A := fun w => (Throw e, w).
Definition update (f : World -> World) : comp unit := fun w => (Ok tt, f w).
Definition lift {A : Type} (r : outcome A) : comp A := fun w => (r, w).

(** Code that may throw, over the whole state. *)
Definition action (A : Type) : Type := State -> outcome A * State.

(** The body of an entry point that does not name [CAPI_LAST_ERROR]. *)
Definition in_world {A : Type} (body : comp A) : action A := fun st =>
  let (r, w) := body (world st) in (r, mk_state (CAPI_LAST_ERROR st) w).

(** Modelled from the spec: the macros of [chemfiles/capi.hpp] are not among
    the sources.  Section 4.1: the body runs inside a scope that intercepts
    every failure; an intercepted failure stores its message as the new last
    error; normal completion leaves the last error alone. *)
Definition boundary {A : Type} (body : action A) : action A := fun st =>
  match body st with
  | (Ok a, st') => (Ok a, st')
  | (Throw e, st') => (Throw e, mk_state (what e) (world st'))
  end.

Definition status_of {A : Type} (r : outcome A) : chfl_status :=
  match r with
  | Ok _ => CHFL_SUCCESS
  | Throw e => status_of_kind (kind e)
  end.

Definition written {A : Type} (r : outcome A) : option A :=
  match r with
  | Ok a => Some a
  | Throw _ => None
  end.

(** Modelled from the spec: [CHFL_ERROR_CATCH(instructions)], the macro every
    function of [logging.cpp] is written with.  The status of the outcome is
    the function's result. *)
Definition CHFL_ERROR_CATCH (body : action unit) : State -> chfl_status * State :=
  fun st => let (r, st') := boundary body st in (status_of r, st').

(** Modelled from the spec: an entry point with an output argument.  The
    caller's storage is written on success only. *)
Definition CHFL_ERROR_CATCH_out {A : Type} (body : action A)
    : State -> chfl_status * option A * State :=
  fun st => let (r, st') := boundary body st in (status_of r, written r, st').

(** Modelled from the spec: the boundary of a constructor.  A handle on
    success, the null pointer on failure. *)
Definition CHFL_ERROR_GOTO (body : action positive) : State -> handle * State :=
  fun st => let (r, st') := boundary body st in (written r, st').

(** *** logging.cpp *)

(** [const char* chfl_last_error(void)] *)
Definition chfl_last_error (st : State) : string := CAPI_LAST_ERROR st.

(** [int chfl_clear_errors(void)] *)
Definition chfl_clear_errors : State -> chfl_status * State :=
  CHFL_ERROR_CATCH (fun st => (Ok tt, mk_state "" (world st))).

(** Modelled from the spec: the operations of [Logger]: query and set the
    level, replace the destination. *)
Definition Logger_level : comp LogLevel := fun w => (Ok (log_level (logger w)), w).

Definition Logger_set_level (l : LogLevel) : comp unit :=
  update (fun w => set_logger (mk_logger l (log_sink (logger w))) w).

Definition Logger_redirect (s : LogSink) : comp unit :=
  update (fun w => set_logger (mk_logger (log_level (logger w)) s) w).

(** Modelled from the spec: redirecting to a file fails with a file-access
    error when the file can not be opened.  The wording of the message is
    not fixed by the spec. *)
Definition Logger_to_file (path : string) : comp unit := fun w =>
  if decide (path ∈ writable w)
  then Logger_redirect (TO_FILE path) w
  else (Throw (raise_class FileError ("Could not open the file " +:+ path)), w).

(** [int chfl_loglevel(chfl_log_level_t* level)] *)
Definition chfl_loglevel : State -> chfl_status * option LogLevel * State :=
  CHFL_ERROR_CATCH_out (in_world Logger_level).

(** [int chfl_set_loglevel(chfl_log_level_t level)] *)
Definition chfl_set_loglevel (l : LogLevel) : State -> chfl_status * State :=
  CHFL_ERROR_CATCH (in_world (Logger_set_level l)).

(** [int chfl_logfile(const char* file)] *)
Definition chfl_logfile (file : string) : State -> chfl_status * State :=
  CHFL_ERROR_CATCH (in_world (Logger_to_file file)).

(** [int chfl_log_stdout(void)] *)
Definition chfl_log_stdout : State -> chfl_status * State :=
  CHFL_ERROR_CATCH (in_world (Logger_redirect TO_STDOUT)).

(** [int chfl_log_stderr(void)] *)
Definition chfl_log_stderr : State -> chfl_status * State :=
  CHFL_ERROR_CATCH (in_world (Logger_redirect TO_STDERR)).

(** [int chfl_log_silent(void)] *)
Definition chfl_log_silent : State -> chfl_status * State :=
  CHFL_ERROR_CATCH (in_world (Logger_redirect SILENT)).

(** [int chfl_log_callback(chfl_logging_cb callback)] *)
Definition chfl_log_callback (callback : positive) : State -> chfl_status * State :=
  CHFL_ERROR_CATCH (in_world (Logger_redirect (CALLBACK callback))).

(** *** Sequences of calls *)

(** An entry point as it appears in a sequence of calls: any wrapped body
    over the world, or the explicit clear. *)
Inductive entry : Type :=
  | Wrapped (body : comp unit)
  | ClearErrors.

Definition body_of (e : entry) : action unit :=
  match e with
  | Wrapped body => in_world body
  | ClearErrors => fun st => (Ok tt, mk_state "" (world st))
  end.

(** Run the calls in order; the trace keeps what each call did. *)
Fixpoint run (calls : list entry) (st : State) : list (entry * outcome unit) * State :=
  match calls with
  | [] => ([], st)
  | e :: rest =>
      let (r, st') := boundary (body_of e) st in
      let (trace, st'') := run rest st' in
      ((e, r) :: trace, st'')
  end.

(** What the last-error string should hold after a trace: each failure
    overwrites it, a clear empties it, a success leaves it alone. *)
Definition after_event (message : string) (ev : entry * outcome unit) : string :=
  match ev with
  | (_, Throw e) => what e
  | (ClearErrors, Ok _) => ""
  | (Wrapped _, Ok _) => message
  end.

(** The message of the most recent failing call of a trace, if any call
    failed. *)
Fixpoint most_recent_failure (trace : list (entry * outcome unit)) : option string :=
  match trace with
  | [] => None
  | (_, r) :: rest =>
      match most_recent_failure rest with
      | Some message => Some message
      | None => match r with Throw e => Some (what e) | Ok _ => None end
      end
  end.

Definition is_wrapped (e : entry) : bool :=
  match e with Wrapped _ => true | ClearErrors => false end.

End Capi.
Export Capi.

(** ** The unit-cell entry points *)

(** [capi/cell.cpp] is not among the sources; only its tests are.  The entry
    points below follow section 4.3: each takes plain data and an opaque
    handle, is wrapped by the boundary, writes its result to the caller's
    storage, and a constructor whose allocation fails returns the null
    pointer. *)
Module CellApi.

(** Modelled from the spec: an allocation failure is a failure of kind
    Memory.  The wording of its message is not fixed by the spec. *)
Definition bad_alloc : exception := mk_exception Memory "std::bad_alloc".

(** Modelled from the spec: [fail_next_allocation()] of the test helpers
    ([helpers.hpp] is not among the sources) makes the next allocation
    fail. *)
Definition fail_next_allocation (st : State) : State :=
  mk_state (CAPI_LAST_ERROR st) (set_fail_next true (world st)).

(** Modelled from the spec: the allocator behind [new].  An armed failure
    is consumed and throws; otherwise the address is one no live object
    has. *)
Definition allocate : comp positive := fun w =>
  if fail_next w
  then (Throw bad_alloc, set_fail_next false w)
  else (Ok (fresh (dom (heap w))), w).

Definition store (p : positive) (o : object) : comp unit :=
  update (fun w => set_heap (<[p := o]> (heap w)) w).

(** [new T(args)]: the memory is obtained first, then the object is built;
    nothing is stored when the construction throws. *)
Definition new_object (build : comp object) : comp positive :=
  p ← allocate; o ← build; _ ← store p o; mret p.

(** Modelled from the spec: dereferencing a handle.  The spec lists an
    invalid handle as a failure without naming its kind; it is reported
    here as a generic failure. *)
Definition deref (h : handle) : comp object := fun w =>
  match h with
  | None => (Throw (mk_exception Generic "null pointer"), w)
  | Some p =>
      match heap w !! p with
      | Some o => (Ok o, w)
      | None => (Throw (mk_exception Generic "invalid handle"), w)
      end
  end.

Definition deref_cell (h : handle) : comp UnitCell :=
  o ← deref h;
  match o with
  | ObjCell c => mret c
  | ObjFrame _ => throw (mk_exception Generic "not a cell")
  end.

Definition deref_frame (h : handle) : comp UnitCell :=
  o ← deref h;
  match o with
  | ObjFrame c => mret c
  | ObjCell _ => throw (mk_exception Generic "not a frame")
  end.

(** In-place mutation of the cell behind a handle. *)
Definition mutate (h : handle) (f : UnitCell -> outcome UnitCell) : comp unit :=
  c ← deref_cell h;
  c' ← lift (f c);
  match h with
  | Some p => store p (ObjCell c')
  | None => mret tt
  end.

(** What each constructor builds once the memory is there. *)
Definition cell_from_lengths (l : Vector3D) : comp object :=
  c ← lift (orthorhombic l); mret (ObjCell c).

Definition cell_from_lengths_angles (l a : Vector3D) : comp object :=
  c ← lift (triclinic l a); mret (ObjCell c).

Definition cell_from_cell (cell : handle) : comp object :=
  c ← deref_cell cell; mret (ObjCell c).

Definition cell_from_frame (frame : handle) : comp object :=
  c ← deref_frame frame; mret (ObjCell c).

Definition empty_frame : comp object :=
  mret (ObjFrame (unit_cell (diagonal (vector3d 0 0 0)) INFINITE)).

(** Modelled from the spec: a constructor is [new] inside the boundary. *)
Definition construct (build : comp object) : State -> handle * State :=
  CHFL_ERROR_GOTO (in_world (new_object build)).

(** The status the boundary classifies a constructor call as; the C function
    returns the handle alone. *)
Definition construct_status (build : comp object) (st : State) : chfl_status :=
  status_of (boundary (in_world (new_object build)) st).1.

(** Modelled from the spec: [CHFL_CELL* chfl_cell(const chfl_vector3d lengths)] *)
Definition chfl_cell (l : Vector3D) : State -> handle * State :=
  construct (cell_from_lengths l).

(** Modelled from the spec: [CHFL_CELL* chfl_cell_triclinic(const chfl_vector3d lengths, const chfl_vector3d angles)] *)
Definition chfl_cell_triclinic (l a : Vector3D) : State -> handle * State :=
  construct (cell_from_lengths_angles l a).

(** Modelled from the spec: [CHFL_CELL* chfl_cell_copy(const CHFL_CELL* cell)] *)
Definition chfl_cell_copy (cell : handle) : State -> handle * State :=
  construct (cell_from_cell cell).

(** Modelled from the spec: [CHFL_CELL* chfl_cell_from_frame(const CHFL_FRAME* frame)] *)
Definition chfl_cell_from_frame (frame : handle) : State -> handle * State :=
  construct (cell_from_frame frame).

(** Modelled from the spec: [CHFL_FRAME* chfl_frame(void)]: a new frame has an infinite cell. *)
Definition chfl_frame : State -> handle * State :=
  construct empty_frame.

(** Modelled from the spec: [void chfl_free(const void* object)] *)
Definition chfl_free (h : handle) (st : State) : State :=
  match h with
  | Some p => mk_state (CAPI_LAST_ERROR st) (set_heap (delete p (heap (world st))) (world st))
  | None => st
  end.

(** Modelled from the spec: [int chfl_cell_volume(const CHFL_CELL* cell, double* volume)] *)
Definition chfl_cell_volume (cell : handle) : State -> chfl_status * option R * State :=
  CHFL_ERROR_CATCH_out (in_world (c ← deref_cell cell; mret (volume c))).

(** Modelled from the spec: [int chfl_cell_lengths(const CHFL_CELL* cell, chfl_vector3d lengths)] *)
Definition chfl_cell_lengths (cell : handle) : State -> chfl_status * option Vector3D * State :=
  CHFL_ERROR_CATCH_out (in_world (c ← deref_cell cell; mret (lengths c))).

(** Modelled from the spec: [int chfl_cell_set_lengths(CHFL_CELL* cell, const chfl_vector3d lengths)] *)
Definition chfl_cell_set_lengths (cell : handle) (l : Vector3D) : State -> chfl_status * State :=
  CHFL_ERROR_CATCH (in_world (mutate cell (fun c => set_lengths c l))).

(** Modelled from the spec: [int chfl_cell_angles(const CHFL_CELL* cell, chfl_vector3d angles)] *)
Definition chfl_cell_angles (cell : handle) : State -> chfl_status * option Vector3D * State :=
  CHFL_ERROR_CATCH_out (in_world (c ← deref_cell cell; mret (angles c))).

(** Modelled from the spec: [int chfl_cell_set_angles(CHFL_CELL* cell, const chfl_vector3d angles)] *)
Definition chfl_cell_set_angles (cell : handle) (a : Vector3D) : State -> chfl_status * State :=
  CHFL_ERROR_CATCH (in_world (mutate cell (fun c => set_angles c a))).

(** Modelled from the spec: [int chfl_cell_matrix(const CHFL_CELL* cell, chfl_vector3d matrix[3])] *)
Definition chfl_cell_matrix (cell : handle) : State -> chfl_status * option Matrix3D * State :=
  CHFL_ERROR_CATCH_out (in_world (c ← deref_cell cell; mret (matrix c))).

(** Modelled from the spec: [int chfl_cell_shape(const CHFL_CELL* cell, chfl_cellshape* shape)] *)
Definition chfl_cell_shape (cell : handle) : State -> chfl_status * option CellShape * State :=
  CHFL_ERROR_CATCH_out (in_world (c ← deref_cell cell; mret (shape c))).

(** Modelled from the spec: [int chfl_cell_set_shape(CHFL_CELL* cell, chfl_cellshape shape)] *)
Definition chfl_cell_set_shape (cell : handle) (s : CellShape) : State -> chfl_status * State :=
  CHFL_ERROR_CATCH (in_world (mutate cell (fun c => set_shape c s))).

(** Modelled from the spec: [int chfl_cell_wrap(const CHFL_CELL* cell, chfl_vector3d vector)]: the
    vector is rewritten in place. *)
Definition chfl_cell_wrap (cell : handle) (v : Vector3D) : State -> chfl_status * option Vector3D * State :=
  CHFL_ERROR_CATCH_out (in_world (c ← deref_cell cell; mret (wrap c v))).

(** The cell behind a handle, if the handle is one of a live cell. *)
Definition cell_at (h : handle) (st : State) : option UnitCell :=
  match h with
  | Some p =>
      match heap (world st) !! p with
      | Some (ObjCell c) => Some c
      | _ => None
      end
  | None => None
  end.

(** The state after the cell behind [p] is replaced. *)
Definition with_cell (p : positive) (c : UnitCell) (st : State) : State :=
  mk_state (CAPI_LAST_ERROR st) (set_heap (<[p := ObjCell c]> (heap (world st))) (world st)).

(** The process at start-up: no error recorded, nothing allocated. *)
Definition initial_state : State :=
  mk_state "" (mk_world (mk_logger WARNING TO_STDERR) ∅ false ∅).

End CellApi.
Export CellApi.

(** * Properties *)

(** ** Status-code lookup *)

Section StrerrorFacts.
Variable code_of : chfl_status -> Z.

Lemma ERROR_MESSAGES_lookup_key (s : chfl_status) :
  is_Some (Strerror.ERROR_MESSAGES code_of !! code_of s).
Proof.
  destruct (Strerror.ERROR_MESSAGES code_of !! code_of s) as [m|] eqn:E; [by eexists|].
  apply not_elem_of_list_to_map in E. exfalso. apply E.
  unfold Strerror.ERROR_MESSAGES_init. simpl.
  destruct s; set_solver.
Qed.

Lemma ERROR_MESSAGES_values (k : Z) (m : string) :
  Strerror.ERROR_MESSAGES code_of !! k = Some m ->
  m ∈ (Strerror.ERROR_MESSAGES_init code_of).*2.
Proof.
  intros E. apply elem_of_list_to_map_2 in E.
  apply list_elem_of_fmap. exists (k, m). split; [done | exact E].
Qed.

Lemma ERROR_MESSAGES_nonempty (m : string) :
  m ∈ (Strerror.ERROR_MESSAGES_init code_of).*2 -> m <> ""%string.
Proof.
  unfold Strerror.ERROR_MESSAGES_init. simpl. intros H.
  repeat (apply elem_of_cons in H as [-> | H]; [discriminate|]).
  by apply elem_of_nil in H.
Qed.
End StrerrorFacts.

(** X2: when the enumerators have distinct values, the description of the
    code of a status is the text the initializer list gives for that
    status. *)
Lemma chfl_strerror_injective_numbering (code_of : chfl_status -> Z) (s : chfl_status) :
  (forall s1 s2, code_of s1 = code_of s2 -> s1 = s2) ->
  Strerror.chfl_strerror code_of (code_of s) = Strerror.message_of s.
Proof.
  intros Hinj. unfold Strerror.chfl_strerror.
  assert (Hk : forall s', s' <> s -> code_of s' <> code_of s).
  { intros s' Hne Heq. apply Hne. by apply Hinj. }
  unfold Strerror.ERROR_MESSAGES, Strerror.ERROR_MESSAGES_init. simpl.
  destruct s; simpl;
    repeat first [ rewrite lookup_insert_eq; reflexivity
                 | rewrite lookup_insert_ne; [| apply Hk; discriminate] ].
Qed.

(** C7: [chfl_strerror] takes the code alone: it reads the constant
    [ERROR_MESSAGES] and no process state, so two calls with the same code
    return the same string whatever ran in between.  For each of the seven
    status codes, and whatever integers the enumerators stand for, that
    string is one of the seven fixed texts and is not empty. *)
Theorem chfl_strerror_status_message (code_of : chfl_status -> Z) (s : chfl_status) :
  Strerror.chfl_strerror code_of (code_of s) <> ""%string /\
  Strerror.chfl_strerror code_of (code_of s) ∈ Strerror.message_of <$> all_statuses.
Proof.
  unfold Strerror.chfl_strerror.
  destruct (ERROR_MESSAGES_lookup_key code_of s) as [m Hm]. rewrite Hm.
  apply ERROR_MESSAGES_values in Hm. split.
  - by apply (ERROR_MESSAGES_nonempty code_of).
  - exact Hm.
Qed.

(** C10: a code that is the value of none of the seven enumerators is not a
    key of [ERROR_MESSAGES], and [chfl_strerror] returns the empty string. *)
Theorem chfl_strerror_unknown_code (code_of : chfl_status -> Z) (code : Z) :
  (forall s, code <> code_of s) ->
  Strerror.chfl_strerror code_of code = ""%string.
Proof.
  intros Hcode. unfold Strerror.chfl_strerror.
  assert (E : Strerror.ERROR_MESSAGES code_of !! code = None).
  { apply not_elem_of_list_to_map. unfold Strerror.ERROR_MESSAGES_init. simpl.
    intros Hin.
    repeat (apply elem_of_cons in Hin as [Heq | Hin]; [by eapply Hcode|]).
    by apply elem_of_nil in Hin. }
  by rewrite E.
Qed.

Lemma chfl_strerror_unknown_code_witness :
  Strerror.chfl_strerror Strerror.source_order 7 = ""%string /\
  Strerror.chfl_strerror Strerror.source_order (-1) = ""%string.
Proof.
  split; apply chfl_strerror_unknown_code; intros s; destruct s; simpl; lia.
Defined.

(** ** The last-error state *)

Lemma boundary_last_error {A : Type} (body : action A) (st : State) :
  CAPI_LAST_ERROR (boundary body st).2 =
  match (body st).1 with
  | Ok _ => CAPI_LAST_ERROR (body st).2
  | Throw e => what e
  end.
Proof.
  unfold boundary. destruct (body st) as [[a|e] st']; reflexivity.
Qed.

Lemma boundary_outcome {A : Type} (body : action A) (st : State) :
  (boundary body st).1 = (body st).1.
Proof.
  unfold boundary. destruct (body st) as [[a|e] st']; reflexivity.
Qed.

Lemma in_world_last_error {A : Type} (body : comp A) (st : State) :
  CAPI_LAST_ERROR (in_world body st).2 = CAPI_LAST_ERROR st.
Proof.
  unfold in_world. destruct (body (world st)); reflexivity.
Qed.

(** One call: a failure overwrites the message, a clear empties it, any
    other success leaves it alone. *)
Lemma boundary_entry_last_error (e : entry) (st : State) :
  CAPI_LAST_ERROR (boundary (body_of e) st).2 =
  after_event (CAPI_LAST_ERROR st) (e, (boundary (body_of e) st).1).
Proof.
  rewrite boundary_last_error, boundary_outcome.
  destruct e as [body|]; simpl.
  - pose proof (in_world_last_error body st) as H.
    destruct (in_world body st) as [[[]|x] st']; simpl in *; congruence.
  - reflexivity.
Qed.

Lemma run_cons (e : entry) (rest : list entry) (st : State) :
  run (e :: rest) st =
  ((e, (boundary (body_of e) st).1) :: (run rest (boundary (body_of e) st).2).1,
   (run rest (boundary (body_of e) st).2).2).
Proof.
  simpl. destruct (boundary (body_of e) st) as [r st']. simpl.
  destruct (run rest st'); reflexivity.
Qed.

(** Any sequence, clears included: the final message is the fold of
    [after_event] over the trace. *)
Lemma run_last_error (calls : list entry) (st : State) :
  CAPI_LAST_ERROR (run calls st).2 =
  foldl after_event (CAPI_LAST_ERROR st) (run calls st).1.
Proof.
  revert st. induction calls as [|e rest IH]; intros st; [reflexivity|].
  rewrite run_cons. simpl. rewrite IH. f_equal.
  apply boundary_entry_last_error.
Qed.

Lemma run_trace_entries (calls : list entry) (st : State) :
  (run calls st).1.*1 = calls.
Proof.
  revert st. induction calls as [|e rest IH]; intros st; [reflexivity|].
  rewrite run_cons. simpl. by rewrite IH.
Qed.

Lemma foldl_after_event_wrapped (trace : list (entry * outcome unit)) (message : string) :
  forallb is_wrapped trace.*1 = true ->
  foldl after_event message trace = default message (most_recent_failure trace).
Proof.
  revert message. induction trace as [|[e r] rest IH]; intros message Hw; [reflexivity|].
  simpl in Hw. apply andb_prop in Hw as [He Hrest].
  simpl. rewrite (IH _ Hrest).
  destruct (most_recent_failure rest) as [m|]; [reflexivity|].
  destruct e as [body|]; [|discriminate].
  destruct r as [[]|x]; reflexivity.
Qed.

Lemma forallb_is_wrapped (bodies : list (comp unit)) :
  forallb is_wrapped (Wrapped <$> bodies) = true.
Proof. induction bodies; simpl; auto. Qed.

(** C6: [chfl_clear_errors] succeeds and leaves the empty string to
    [chfl_last_error]; a wrapped call that fails leaves its own message and
    one that succeeds leaves what was there; and after any sequence of
    wrapped calls, [chfl_last_error] returns the message of the most recent
    call that failed, or what it returned before the sequence when none
    failed. *)
Theorem last_error_most_recent_failure :
  (forall st : State,
     (chfl_clear_errors st).1 = CHFL_SUCCESS /\
     chfl_last_error (chfl_clear_errors st).2 = ""%string) /\
  (forall (body : comp unit) (st : State),
     chfl_last_error (CHFL_ERROR_CATCH (in_world body) st).2 =
     match (body (world st)).1 with
     | Throw e => what e
     | Ok _ => chfl_last_error st
     end) /\
  (forall (bodies : list (comp unit)) (st : State),
     chfl_last_error (run (Wrapped <$> bodies) st).2 =
     default (chfl_last_error st) (most_recent_failure (run (Wrapped <$> bodies) st).1)).
Proof.
  split; [| split].
  - intros st. split; reflexivity.
  - intros body st. unfold chfl_last_error, CHFL_ERROR_CATCH, boundary, in_world.
    destruct (body (world st)) as [[[]|e] w]; reflexivity.
  - intros bodies st. unfold chfl_last_error.
    rewrite run_last_error. apply foldl_after_event_wrapped.
    rewrite run_trace_entries. apply forallb_is_wrapped.
Qed.

(** The functions of [logging.cpp] are wrapped calls in the sense of [run]. *)
Lemma CHFL_ERROR_CATCH_as_entry (body : comp unit) (st : State) :
  CHFL_ERROR_CATCH (in_world body) st =
  (status_of (boundary (body_of (Wrapped body)) st).1, (boundary (body_of (Wrapped body)) st).2).
Proof.
  unfold CHFL_ERROR_CATCH. simpl. destruct (boundary (in_world body) st); reflexivity.
Qed.

(** A failed [chfl_logfile] followed by successful calls, then a clear. *)
Example last_error_after_logfile :
  let calls := [Wrapped (Logger_to_file "/nowhere/log"); Wrapped (Logger_redirect TO_STDOUT);
                Wrapped (Logger_set_level DEBUG)] in
  chfl_last_error (run calls initial_state).2 = "Could not open the file /nowhere/log"%string /\
  chfl_last_error (chfl_clear_errors (run calls initial_state).2).2 = ""%string.
Proof. split; reflexivity. Qed.

(** ** Rounding *)

Section Rounding.
Local Open Scope R_scope.

Lemma Int_part_bounds (x : R) : IZR (Int_part x) <= x < IZR (Int_part x) + 1.
Proof. destruct (base_Int_part x). lra. Qed.

Lemma Int_part_unique (x : R) (z : Z) : IZR z <= x < IZR z + 1 -> Int_part x = z.
Proof. intros H. symmetry. apply Int_part_spec. lra. Qed.

Lemma round_nonneg (x : R) : 0 <= x -> x - / 2 < IZR (round x) <= x + / 2.
Proof.
  intros Hx. unfold round. destruct (Rle_dec 0 x) as [_|]; [|lra].
  pose proof (Int_part_bounds (x + / 2)). lra.
Qed.

Lemma round_neg (x : R) : x < 0 -> x - / 2 <= IZR (round x) < x + / 2.
Proof.
  intros Hx. unfold round. destruct (Rle_dec 0 x) as [|_]; [lra|].
  pose proof (Int_part_bounds (- x + / 2)). rewrite opp_IZR. lra.
Qed.

Lemma round_unique_nonneg (x : R) (z : Z) :
  0 <= x -> x - / 2 < IZR z <= x + / 2 -> round x = z.
Proof.
  intros Hx H. unfold round. destruct (Rle_dec 0 x) as [_|]; [|lra].
  apply Int_part_unique. lra.
Qed.

Lemma round_unique_neg (x : R) (z : Z) :
  x < 0 -> x - / 2 <= IZR z < x + / 2 -> round x = z.
Proof.
  intros Hx H. unfold round. destruct (Rle_dec 0 x) as [|_]; [lra|].
  rewrite (Int_part_unique (- x + / 2) (- z)); [lia|].
  rewrite opp_IZR. lra.
Qed.

Lemma round_small (x : R) : - / 2 < x < / 2 -> round x = 0%Z.
Proof.
  intros H. destruct (Rle_dec 0 x).
  - apply round_unique_nonneg; simpl; lra.
  - apply round_unique_neg; simpl; lra.
Qed.

Lemma round_opp (x : R) : round (- x) = (- round x)%Z.
Proof.
  destruct (Rtotal_order x 0) as [Hx | [-> | Hx]].
  - apply round_unique_nonneg; [lra|].
    pose proof (round_neg x Hx). rewrite opp_IZR. lra.
  - rewrite Ropp_0, (round_small 0); [reflexivity | lra].
  - apply round_unique_neg; [lra|].
    pose proof (round_nonneg x ltac:(lra)). rewrite opp_IZR. lra.
Qed.


Lemma reduce_opp (f : R) : reduce (- f) = - reduce f.
Proof. unfold reduce. rewrite round_opp, opp_IZR. lra. Qed.



Lemma round_half : round (/ 2) = 1%Z.
Proof. apply round_unique_nonneg; simpl; lra. Qed.

Lemma round_minus_half : round (- / 2) = (-1)%Z.
Proof. rewrite round_opp, round_half. reflexivity. Qed.

End Rounding.

Section Ties.
Local Open Scope R_scope.

(** At a tie the reduced coordinate is an end of the interval, and reducing
    it again flips it to the other end: the restriction to vectors without
    ties can not be dropped. *)
Lemma reduce_tie_flips (f : R) :
  halfway f ->
  (reduce f = / 2 \/ reduce f = - / 2) /\ reduce (reduce f) = - reduce f.
Proof.
  intros [k ->].
  assert (Hend : reduce (IZR k + / 2) = / 2 \/ reduce (IZR k + / 2) = - / 2).
  { unfold reduce. destruct (Rle_dec 0 (IZR k + / 2)) as [Hpos | Hneg].
    - right. rewrite (round_unique_nonneg _ (k + 1)); [rewrite plus_IZR; lra | exact Hpos |].
      rewrite plus_IZR. lra.
    - left. rewrite (round_unique_neg _ k); lra. }
  split; [exact Hend|].
  destruct Hend as [-> | ->].
  - unfold reduce. rewrite round_half. lra.
  - unfold reduce. rewrite round_minus_half. lra.
Qed.

End Ties.

(** ** Vectors and matrices *)

Section Algebra.
Local Open Scope R_scope.

Lemma vector3d_eq (u v : Vector3D) :
  vx u = vx v -> vy u = vy v -> vz u = vz v -> u = v.
Proof. destruct u, v; simpl; intros; subst; reflexivity. Qed.

Lemma sqrt_sq_abs (x : R) : sqrt (x * x) = Rabs x.
Proof. apply (sqrt_Rsqr_abs x). Qed.

Lemma norm_x (x : R) : norm (vector3d x 0 0) = Rabs x.
Proof. unfold norm, dot; simpl. rewrite <- sqrt_sq_abs. f_equal. lra. Qed.

Lemma norm_y (y : R) : norm (vector3d 0 y 0) = Rabs y.
Proof. unfold norm, dot; simpl. rewrite <- sqrt_sq_abs. f_equal. lra. Qed.

Lemma norm_z (z : R) : norm (vector3d 0 0 z) = Rabs z.
Proof. unfold norm, dot; simpl. rewrite <- sqrt_sq_abs. f_equal. lra. Qed.

Lemma norm_nonneg (v : Vector3D) : 0 <= norm v.
Proof. apply sqrt_pos. Qed.

Lemma diagonal_is_diagonal (l : Vector3D) : is_diagonal (diagonal l).
Proof. repeat split. Qed.


Lemma lengths_diagonal (l : Vector3D) (s : CellShape) :
  lengths (unit_cell (diagonal l) s) = vector3d (Rabs (vx l)) (Rabs (vy l)) (Rabs (vz l)).
Proof. unfold lengths; simpl. by rewrite norm_x, norm_y, norm_z. Qed.

Lemma determinant_diagonal (l : Vector3D) :
  determinant (diagonal l) = vx l * vy l * vz l.
Proof. unfold determinant, dot, cross; simpl. lra. Qed.




End Algebra.

(** ** Wrapping *)

Section Wrapping.
Local Open Scope R_scope.







(** The cell and the vectors of the wrap test. *)
Lemma wrap_cell_234 (c : UnitCell) (v : Vector3D) :
  shape c = ORTHORHOMBIC -> lengths c = vector3d 2 3 4 ->
  wrap c v = vector3d (wrap_axis (vx v) 2) (wrap_axis (vy v) 3) (wrap_axis (vz v) 4).
Proof. intros Hs Hl. unfold wrap. rewrite Hs, Hl. reflexivity. Qed.

Lemma wrap_axis_value (v len : R) (z : Z) :
  round (v / len) = z -> wrap_axis v len = v - len * IZR z.
Proof. intros <-. reflexivity. Qed.

Lemma wrap_test_x : wrap_axis 0.8 2 = 0.8.
Proof.
  rewrite (wrap_axis_value _ _ 0); [simpl; lra|]. apply round_small. lra.
Qed.

Lemma wrap_test_y : wrap_axis 1.7 3 = -1.3.
Proof.
  rewrite (wrap_axis_value _ _ 1); [simpl; lra|]. apply round_unique_nonneg; simpl; lra.
Qed.

Lemma wrap_test_z : wrap_axis (-6) 4 = 2.
Proof.
  rewrite (wrap_axis_value _ _ (-2)); [simpl; lra|]. apply round_unique_neg; simpl; lra.
Qed.





Lemma lengths_234 (s : CellShape) :
  lengths (unit_cell (diagonal (vector3d 2 3 4)) s) = vector3d 2 3 4.
Proof.
  rewrite lengths_diagonal. cbn [vx vy vz].
  rewrite !Rabs_right by lra. reflexivity.
Qed.

End Wrapping.

Section WrapProperties.
Local Open Scope R_scope.

Lemma lt_b_true (x y : R) : lt_b x y = true <-> x < y.
Proof. unfold lt_b. destruct (Rlt_dec x y); split; intros; auto; discriminate. Qed.

Lemma le_b_true (x y : R) : le_b x y = true <-> x <= y.
Proof. unfold le_b. destruct (Rle_dec x y); split; intros; auto; discriminate. Qed.

Lemma approx_eq_row_true (a b : Vector3D) :
  approx_eq_row a b = true <->
  Rabs (vx a - vx b) < eps /\ Rabs (vy a - vy b) < eps /\ Rabs (vz a - vz b) < eps.
Proof.
  unfold approx_eq_row. rewrite !andb_true_iff, !lt_b_true. tauto.
Qed.

Lemma approx_eq_row_refl (a : Vector3D) : approx_eq_row a a = true.
Proof.
  apply approx_eq_row_true. unfold eps.
  rewrite !Rminus_diag, Rabs_R0. lra.
Qed.




Lemma wrap_diagonal_234 (v : Vector3D) :
  wrap (unit_cell (diagonal (vector3d 2 3 4)) ORTHORHOMBIC) v =
  vector3d (wrap_axis (vx v) 2) (wrap_axis (vy v) 3) (wrap_axis (vz v) 4).
Proof. apply wrap_cell_234; [reflexivity | apply lengths_234]. Qed.







End WrapProperties.

(** ** The entry points on a live cell *)

Section EntryPoints.
Local Open Scope R_scope.

Lemma state_eta (st : State) : mk_state (CAPI_LAST_ERROR st) (world st) = st.
Proof. by destruct st. Qed.

Lemma cell_at_heap (p : positive) (st : State) (c : UnitCell) :
  cell_at (Some p) st = Some c <-> heap (world st) !! p = Some (ObjCell c).
Proof.
  unfold cell_at. destruct (heap (world st) !! p) as [[c'|c']|]; split; intros H;
    try discriminate; congruence.
Qed.

Lemma cell_at_Some (h : handle) (st : State) (c : UnitCell) :
  cell_at h st = Some c -> exists p, h = Some p /\ heap (world st) !! p = Some (ObjCell c).
Proof.
  destruct h as [p|]; [|discriminate]. intros H. exists p. split; [done|].
  by apply cell_at_heap.
Qed.

Lemma deref_cell_live (p : positive) (w : World) (c : UnitCell) :
  heap w !! p = Some (ObjCell c) -> deref_cell (Some p) w = (Ok c, w).
Proof.
  intros H. unfold deref_cell, mbind, comp_bind, deref. rewrite H. reflexivity.
Qed.

(** A getter on a live cell succeeds, writes its result and changes
    nothing. *)
Lemma getter_live {A : Type} (f : UnitCell -> A) (h : handle) (st : State) (c : UnitCell) :
  cell_at h st = Some c ->
  CHFL_ERROR_CATCH_out (in_world (c ← deref_cell h; mret (f c))) st
  = (CHFL_SUCCESS, Some (f c), st).
Proof.
  intros H. apply cell_at_Some in H as (p & -> & H).
  unfold CHFL_ERROR_CATCH_out, boundary, in_world, mbind, comp_bind.
  rewrite (deref_cell_live _ _ _ H). cbn. by rewrite state_eta.
Qed.

(** A setter on a live cell: on success the cell is replaced and the last
    error is left alone; on failure the cell is left alone and the message
    is recorded. *)
Lemma setter_live (f : UnitCell -> outcome UnitCell) (p : positive) (st : State) (c : UnitCell) :
  cell_at (Some p) st = Some c ->
  CHFL_ERROR_CATCH (in_world (mutate (Some p) f)) st =
  match f c with
  | Ok c' => (CHFL_SUCCESS, with_cell p c' st)
  | Throw e => (status_of_kind (kind e), mk_state (what e) (world st))
  end.
Proof.
  intros H. apply cell_at_heap in H.
  unfold CHFL_ERROR_CATCH, boundary, in_world, mutate, mbind, comp_bind.
  rewrite (deref_cell_live _ _ _ H). unfold lift.
  destruct (f c) as [c'|e]; reflexivity.
Qed.

Lemma cell_at_with_cell (p q : positive) (c : UnitCell) (st : State) :
  cell_at (Some q) (with_cell p c st) = if decide (p = q) then Some c else cell_at (Some q) st.
Proof.
  unfold cell_at, with_cell. cbn [world heap set_heap].
  rewrite lookup_insert. by destruct (decide (p = q)).
Qed.

(** A constructor whose allocation is not set to fail and whose object
    builds: the object is stored at a fresh address. *)
Lemma constructor_success (build : comp object) (o : object) (st : State) :
  fail_next (world st) = false ->
  build (world st) = (Ok o, world st) ->
  construct build st =
  (Some (fresh (dom (heap (world st)))),
   mk_state (CAPI_LAST_ERROR st)
            (set_heap (<[fresh (dom (heap (world st))) := o]> (heap (world st))) (world st))).
Proof.
  intros Hf Hb.
  unfold construct, CHFL_ERROR_GOTO, boundary, in_world, new_object, mbind, comp_bind, allocate.
  rewrite Hf, Hb. reflexivity.
Qed.


(** A constructor whose allocation is set to fail: the null pointer, the
    message of the allocation failure recorded, no object stored. *)
Lemma constructor_bad_alloc (build : comp object) (st : State) :
  fail_next (world st) = true ->
  construct build st =
  (nullptr, mk_state (what bad_alloc) (set_fail_next false (world st))) /\
  construct_status build st = CHFL_MEMORY_ERROR.
Proof.
  intros Hf.
  unfold construct, construct_status, CHFL_ERROR_GOTO, boundary, in_world, new_object, mbind, comp_bind, allocate.
  rewrite Hf. split; reflexivity.
Qed.

Lemma fresh_address_unused (st : State) :
  heap (world st) !! fresh (dom (heap (world st))) = None.
Proof. apply not_elem_of_dom, is_fresh. Qed.

End EntryPoints.

(** ** Construction and read-back *)

Section Construction.
Local Open Scope R_scope.

Lemma negative_length_false (l : Vector3D) :
  0 <= vx l -> 0 <= vy l -> 0 <= vz l -> negative_length l = false.
Proof.
  intros Hx Hy Hz. unfold negative_length, lt_b.
  repeat (destruct (Rlt_dec _ _); [lra|]). reflexivity.
Qed.


Lemma degrees_right_angle : degrees (PI / 2) = 90.
Proof. unfold degrees. field. apply PI_neq0. Qed.


Lemma angle_orthogonal (u v : Vector3D) : dot u v = 0 -> angle u v = 90.
Proof.
  intros H. unfold angle. rewrite H. unfold Rdiv. rewrite Rmult_0_l, acos_0.
  apply degrees_right_angle.
Qed.

Lemma angles_diagonal (l : Vector3D) (s : CellShape) :
  angles (unit_cell (diagonal l) s) = vector3d 90 90 90.
Proof.
  unfold angles. cbn [matrix diagonal row_a row_b row_c].
  rewrite !angle_orthogonal; [reflexivity | | |]; unfold dot; cbn [vx vy vz]; lra.
Qed.

Lemma lengths_diagonal_nonneg (l : Vector3D) (s : CellShape) :
  0 <= vx l -> 0 <= vy l -> 0 <= vz l -> lengths (unit_cell (diagonal l) s) = l.
Proof.
  intros Hx Hy Hz. rewrite lengths_diagonal.
  rewrite !Rabs_right by lra. by destruct l.
Qed.



Lemma cell_from_lengths_ok (l : Vector3D) (w : World) :
  0 <= vx l -> 0 <= vy l -> 0 <= vz l ->
  cell_from_lengths l w = (Ok (ObjCell (unit_cell (diagonal l) ORTHORHOMBIC)), w).
Proof.
  intros Hx Hy Hz. unfold cell_from_lengths, mbind, comp_bind, lift, orthorhombic.
  by rewrite negative_length_false.
Qed.


Lemma cell_at_stored (st : State) (p : positive) (c : UnitCell) :
  cell_at (Some p)
    (mk_state (CAPI_LAST_ERROR st) (set_heap (<[p := ObjCell c]> (heap (world st))) (world st)))
  = Some c.
Proof. unfold cell_at. cbn [world heap set_heap]. by rewrite lookup_insert_eq. Qed.






End Construction.

(** ** Copies and allocation failures *)

Section Handles.
Local Open Scope R_scope.

Lemma cell_from_cell_live (p : positive) (w : World) (c : UnitCell) :
  heap w !! p = Some (ObjCell c) -> cell_from_cell (Some p) w = (Ok (ObjCell c), w).
Proof.
  intros H. unfold cell_from_cell, mbind, comp_bind.
  by rewrite (deref_cell_live _ _ _ H).
Qed.

(** A copy is a new object with the value of the original. *)
Lemma chfl_cell_copy_live (p : positive) (st : State) (c : UnitCell) :
  cell_at (Some p) st = Some c -> fail_next (world st) = false ->
  let q := fresh (dom (heap (world st))) in
  chfl_cell_copy (Some p) st = (Some q, with_cell q c st) /\ q <> p.
Proof.
  intros Hc Hf q. apply cell_at_heap in Hc. split.
  - unfold chfl_cell_copy.
    by rewrite (constructor_success _ _ st Hf (cell_from_cell_live _ _ _ Hc)).
  - intros E. pose proof (fresh_address_unused st) as Hq. fold q in Hq.
    rewrite E in Hq. congruence.
Qed.

(** Whatever a setter does to the cell behind [p], the cell behind another
    address is the same afterwards. *)
Lemma setter_frame (f : UnitCell -> outcome UnitCell) (p q : positive) (st : State)
    (c : UnitCell) :
  cell_at (Some p) st = Some c -> q <> p ->
  cell_at (Some q) (CHFL_ERROR_CATCH (in_world (mutate (Some p) f)) st).2 = cell_at (Some q) st.
Proof.
  intros Hc Hne. rewrite (setter_live f p st c Hc).
  destruct (f c) as [c'|e]; cbn [snd].
  - rewrite cell_at_with_cell. destruct (decide (p = q)); [congruence | reflexivity].
  - reflexivity.
Qed.

(** C4: a copy taken from a live cell is a different handle, and setting the
    lengths of the original, whether the call succeeds or not, leaves the
    cell behind the copy as it was: its volume and its matrix read the same
    before and after. *)
Theorem copy_unaffected_by_set_lengths (st : State) (cell : handle) (c : UnitCell)
    (l : Vector3D) :
  cell_at cell st = Some c -> fail_next (world st) = false ->
  let copy := (chfl_cell_copy cell st).1 in
  let st1 := (chfl_cell_copy cell st).2 in
  let st2 := (chfl_cell_set_lengths cell l st1).2 in
  copy <> nullptr /\ copy <> cell /\
  cell_at copy st1 = Some c /\ cell_at copy st2 = Some c /\
  (chfl_cell_volume copy st1).1 = (CHFL_SUCCESS, Some (volume c)) /\
  (chfl_cell_volume copy st2).1 = (CHFL_SUCCESS, Some (volume c)) /\
  (chfl_cell_matrix copy st1).1 = (CHFL_SUCCESS, Some (matrix c)) /\
  (chfl_cell_matrix copy st2).1 = (CHFL_SUCCESS, Some (matrix c)).
Proof.
  intros Hc Hf. cbv zeta.
  destruct (cell_at_Some _ _ _ Hc) as (p & -> & _).
  destruct (chfl_cell_copy_live p st c Hc Hf) as [Hcopy Hne]. rewrite Hcopy. cbn [fst snd].
  set (q := fresh (dom (heap (world st)))) in *.
  assert (H1 : cell_at (Some q) (with_cell q c st) = Some c).
  { rewrite cell_at_with_cell. by destruct (decide (q = q)). }
  assert (Hp : cell_at (Some p) (with_cell q c st) = Some c).
  { rewrite cell_at_with_cell. by destruct (decide (q = p)). }
  assert (H2 : cell_at (Some q) (chfl_cell_set_lengths (Some p) l (with_cell q c st)).2 = Some c).
  { unfold chfl_cell_set_lengths. by rewrite (setter_frame _ p q _ c Hp Hne). }
  unfold chfl_cell_volume, chfl_cell_matrix.
  rewrite (getter_live volume _ _ _ H1), (getter_live volume _ _ _ H2),
          (getter_live matrix _ _ _ H1), (getter_live matrix _ _ _ H2).
  repeat split; try done. congruence.
Qed.

Lemma copy_unaffected_by_set_lengths_witness :
  let st := (chfl_cell (vector3d 2 2 2) initial_state).2 in
  let cell := (chfl_cell (vector3d 2 2 2) initial_state).1 in
  let c := unit_cell (diagonal (vector3d 2 2 2)) ORTHORHOMBIC in
  let copy := (chfl_cell_copy cell st).1 in
  let st1 := (chfl_cell_copy cell st).2 in
  let st2 := (chfl_cell_set_lengths cell (vector3d 3 3 3) st1).2 in
  copy <> nullptr /\ copy <> cell /\
  cell_at copy st1 = Some c /\ cell_at copy st2 = Some c /\
  (chfl_cell_volume copy st1).1 = (CHFL_SUCCESS, Some (volume c)) /\
  (chfl_cell_volume copy st2).1 = (CHFL_SUCCESS, Some (volume c)) /\
  (chfl_cell_matrix copy st1).1 = (CHFL_SUCCESS, Some (matrix c)) /\
  (chfl_cell_matrix copy st2).1 = (CHFL_SUCCESS, Some (matrix c)).
Proof.
  cbv zeta.
  assert (Hcell : chfl_cell (vector3d 2 2 2) initial_state =
                  (Some (fresh (dom (heap (world initial_state)))),
                   with_cell (fresh (dom (heap (world initial_state))))
                             (unit_cell (diagonal (vector3d 2 2 2)) ORTHORHOMBIC) initial_state)).
  { unfold chfl_cell. apply constructor_success; [reflexivity|].
    apply cell_from_lengths_ok; cbn [vx vy vz]; lra. }
  rewrite Hcell. cbn [fst snd].
  apply (copy_unaffected_by_set_lengths _ _ (unit_cell (diagonal (vector3d 2 2 2)) ORTHORHOMBIC)).
  - rewrite cell_at_with_cell. by destruct (decide _).
  - reflexivity.
Defined.

(** C8: when the next allocation is set to fail, each of the four cell
    constructors returns the null pointer, the boundary classifies the call
    as a memory error and records the message of the allocation failure, and
    no object is added to the heap. *)
Theorem constructors_allocation_failure (st : State) (l a : Vector3D) (cell frame : handle) :
  fail_next (world st) = true ->
  let failed := mk_state (what bad_alloc) (set_fail_next false (world st)) in
  (chfl_cell l st = (nullptr, failed) /\
   construct_status (cell_from_lengths l) st = CHFL_MEMORY_ERROR) /\
  (chfl_cell_triclinic l a st = (nullptr, failed) /\
   construct_status (cell_from_lengths_angles l a) st = CHFL_MEMORY_ERROR) /\
  (chfl_cell_copy cell st = (nullptr, failed) /\
   construct_status (cell_from_cell cell) st = CHFL_MEMORY_ERROR) /\
  (chfl_cell_from_frame frame st = (nullptr, failed) /\
   construct_status (cell_from_frame frame) st = CHFL_MEMORY_ERROR) /\
  kind bad_alloc = Memory /\
  chfl_last_error failed = what bad_alloc /\
  heap (world failed) = heap (world st).
Proof.
  intros Hf. cbv zeta.
  unfold chfl_cell, chfl_cell_triclinic, chfl_cell_copy, chfl_cell_from_frame.
  repeat split; try apply constructor_bad_alloc; exact Hf.
Qed.

Lemma constructors_allocation_failure_witness :
  let dummy := vector3d 0 0 0 in
  let cell := (chfl_cell dummy initial_state).1 in
  let frame := (chfl_frame (chfl_cell dummy initial_state).2).1 in
  let st := fail_next_allocation (chfl_frame (chfl_cell dummy initial_state).2).2 in
  let failed := mk_state (what bad_alloc) (set_fail_next false (world st)) in
  (chfl_cell dummy st = (nullptr, failed) /\
   construct_status (cell_from_lengths dummy) st = CHFL_MEMORY_ERROR) /\
  (chfl_cell_triclinic dummy dummy st = (nullptr, failed) /\
   construct_status (cell_from_lengths_angles dummy dummy) st = CHFL_MEMORY_ERROR) /\
  (chfl_cell_copy cell st = (nullptr, failed) /\
   construct_status (cell_from_cell cell) st = CHFL_MEMORY_ERROR) /\
  (chfl_cell_from_frame frame st = (nullptr, failed) /\
   construct_status (cell_from_frame frame) st = CHFL_MEMORY_ERROR) /\
  kind bad_alloc = Memory /\
  chfl_last_error failed = what bad_alloc /\
  heap (world failed) = heap (world st).
Proof.
  cbv zeta. apply constructors_allocation_failure. reflexivity.
Defined.

End Handles.

(** ** Setting angles *)

Section Angles.
Local Open Scope R_scope.

Lemma sqrt_of_square (x len : R) : 0 < len -> x = len * len -> sqrt x = len.
Proof. intros H ->. apply sqrt_square. lra. Qed.

(** The third lattice vector has a real z component when the Gram
    determinant is not negative. *)
Lemma lattice_height (ca cb cg sg : R) :
  0 < sg -> sg * sg + cg * cg = 1 ->
  0 <= 1 + 2 * ca * cb * cg - ca * ca - cb * cb - cg * cg ->
  0 <= 1 - cb * cb - (ca - cb * cg) / sg * ((ca - cb * cg) / sg).
Proof.
  intros Hsg Hunit Hgram.
  replace (1 - cb * cb - (ca - cb * cg) / sg * ((ca - cb * cg) / sg))
    with ((1 + 2 * ca * cb * cg - ca * ca - cb * cb - cg * cg) / (sg * sg)).
  - apply Rmult_le_pos; [exact Hgram|]. left. apply Rinv_0_lt_compat. nra.
  - replace (1 + 2 * ca * cb * cg - ca * ca - cb * cb - cg * cg)
      with ((1 - cb * cb) * (sg * sg) - (ca - cb * cg) * (ca - cb * cg)).
    + field. lra.
    + assert (E : sg * sg = 1 - cg * cg) by lra. rewrite E. ring.
Qed.

(** Norms and dot products of the lattice built from lengths and angles. *)
Lemma lattice_products (la lb lc ca cb cg sg : R) :
  0 < la -> 0 < lb -> 0 < lc ->
  0 < sg -> sg * sg + cg * cg = 1 ->
  0 <= 1 + 2 * ca * cb * cg - ca * ca - cb * cb - cg * cg ->
  let y := (ca - cb * cg) / sg in
  let z := sqrt (1 - cb * cb - y * y) in
  let A := vector3d la 0 0 in
  let B := vector3d (lb * cg) (lb * sg) 0 in
  let C := vector3d (lc * cb) (lc * y) (lc * z) in
  norm A = la /\ norm B = lb /\ norm C = lc /\
  dot B C = lb * lc * ca /\ dot A C = la * lc * cb /\ dot A B = la * lb * cg.
Proof.
  intros Hla Hlb Hlc Hsg Hunit Hgram y z A B C.
  pose proof (lattice_height ca cb cg sg Hsg Hunit Hgram) as Hz. fold y in Hz.
  assert (Hzz : z * z = 1 - cb * cb - y * y) by (apply sqrt_sqrt; exact Hz).
  assert (Hy : sg * y = ca - cb * cg) by (unfold y; field; lra).
  unfold norm, dot, A, B, C. cbn [vx vy vz]. repeat split.
  - apply sqrt_of_square; [exact Hla | ring].
  - apply sqrt_of_square; [exact Hlb|].
    replace (lb * cg * (lb * cg) + lb * sg * (lb * sg) + 0 * 0)
      with (lb * lb * (sg * sg + cg * cg)) by ring.
    rewrite Hunit. ring.
  - apply sqrt_of_square; [exact Hlc|].
    replace (lc * cb * (lc * cb) + lc * y * (lc * y) + lc * z * (lc * z))
      with (lc * lc * (cb * cb + y * y + z * z)) by ring.
    rewrite Hzz. ring.
  - replace (lb * cg * (lc * cb) + lb * sg * (lc * y) + 0 * (lc * z))
      with (lb * lc * (cg * cb + sg * y)) by ring.
    rewrite Hy. ring.
  - ring.
  - ring.
Qed.

Lemma angle_of_cosine (u v : Vector3D) (lu lv deg : R) :
  0 < lu -> 0 < lv -> 0 < deg < 180 ->
  norm u = lu -> norm v = lv -> dot u v = lu * lv * cos (radians deg) ->
  angle u v = deg.
Proof.
  intros Hu Hv Hdeg Hnu Hnv Hdot. unfold angle. rewrite Hnu, Hnv, Hdot.
  replace (lu * lv * cos (radians deg) / (lu * lv)) with (cos (radians deg))
    by (field; lra).
  pose proof PI_RGT_0 as Hpi.
  rewrite acos_cos.
  - unfold degrees, radians. field. lra.
  - unfold radians. split.
    + apply Rmult_le_pos; [nra | lra].
    + apply Rmult_le_reg_r with 180; [lra|]. unfold Rdiv.
      rewrite Rmult_assoc, Rinv_l by lra. nra.
Qed.

Lemma sin_radians_pos (deg : R) : 0 < deg < 180 -> 0 < sin (radians deg).
Proof.
  intros Hdeg. pose proof PI_RGT_0 as Hpi. unfold radians. apply sin_gt_0.
  - apply Rmult_lt_0_compat; [nra | lra].
  - apply Rmult_lt_reg_r with 180; [lra|]. unfold Rdiv.
    rewrite Rmult_assoc, Rinv_l by lra. nra.
Qed.

(** The angles of the lattice built from positive lengths and realisable
    angles are the angles it was built from. *)
Lemma angles_lattice (l a : Vector3D) (s : CellShape) :
  0 < vx l -> 0 < vy l -> 0 < vz l ->
  0 < vx a < 180 -> 0 < vy a < 180 -> 0 < vz a < 180 ->
  0 <= gram a ->
  angles (unit_cell (lattice l a) s) = a.
Proof.
  intros Hla Hlb Hlc Ha Hb Hg Hgram.
  pose proof (sin_radians_pos _ Hg) as Hsg.
  assert (Hunit : sin (radians (vz a)) * sin (radians (vz a))
                  + cos (radians (vz a)) * cos (radians (vz a)) = 1).
  { apply (sin2_cos2 (radians (vz a))). }
  destruct (lattice_products (vx l) (vy l) (vz l)
              (cos (radians (vx a))) (cos (radians (vy a))) (cos (radians (vz a)))
              (sin (radians (vz a))) Hla Hlb Hlc Hsg Hunit Hgram)
    as (HnA & HnB & HnC & HBC & HAC & HAB).
  unfold angles, lattice. cbn [matrix row_a row_b row_c].
  rewrite (angle_of_cosine _ _ _ _ _ Hlb Hlc Ha HnB HnC HBC).
  rewrite (angle_of_cosine _ _ _ _ _ Hla Hlc Hb HnA HnC HAC).
  rewrite (angle_of_cosine _ _ _ _ _ Hla Hlb Hg HnA HnB HAB).
  by destruct a.
Qed.

End Angles.

Section SetAngles.
Local Open Scope R_scope.

Lemma cos_radians_mid (deg : R) : 60 <= deg <= 120 -> - (1 / 2) <= cos (radians deg) <= 1 / 2.
Proof.
  intros Hdeg. pose proof PI_RGT_0 as Hpi.
  assert (H60 : radians 60 = PI / 3) by (unfold radians; lra).
  assert (H120 : radians 120 = 2 * (PI / 3)) by (unfold radians; lra).
  assert (Hlo : radians 60 <= radians deg) by (unfold radians; nra).
  assert (Hhi : radians deg <= radians 120) by (unfold radians; nra).
  split.
  - replace (- (1 / 2)) with (cos (radians 120)) by (rewrite H120, cos_2PI3; lra).
    apply cos_decr_1; rewrite ?H120 in *; rewrite ?H60 in *; lra.
  - rewrite <- cos_PI3, <- H60.
    apply cos_decr_1; rewrite ?H120 in *; rewrite ?H60 in *; lra.
Qed.

Lemma gram_mid (a : Vector3D) :
  60 <= vx a <= 120 -> 60 <= vy a <= 120 -> 60 <= vz a <= 120 -> 0 <= gram a.
Proof.
  intros Ha Hb Hg. unfold gram.
  pose proof (cos_radians_mid _ Ha). pose proof (cos_radians_mid _ Hb).
  pose proof (cos_radians_mid _ Hg).
  set (x := cos (radians (vx a))) in *. set (y := cos (radians (vy a))) in *.
  set (z := cos (radians (vz a))) in *.
  assert (- (1 / 4) <= x * y <= 1 / 4) by nra.
  nra.
Qed.

Lemma degenerate_false (a : Vector3D) :
  0 < vx a < 180 -> 0 < vy a < 180 -> 0 < vz a < 180 -> vx a + vy a + vz a < 360 ->
  degenerate a = false.
Proof.
  intros Ha Hb Hg Hs. unfold degenerate, le_b.
  repeat (destruct (Rle_dec _ _); [lra|]). reflexivity.
Qed.






Lemma cell_at_with_cell_same (p : positive) (c : UnitCell) (st : State) :
  cell_at (Some p) (with_cell p c st) = Some c.
Proof. rewrite cell_at_with_cell. by destruct (decide (p = p)). Qed.


Lemma chfl_cell_ok (st : State) (l : Vector3D) :
  0 <= vx l -> 0 <= vy l -> 0 <= vz l -> fail_next (world st) = false ->
  chfl_cell l st =
  (Some (fresh (dom (heap (world st)))),
   with_cell (fresh (dom (heap (world st)))) (unit_cell (diagonal l) ORTHORHOMBIC) st).
Proof.
  intros Hx Hy Hz Hf. unfold chfl_cell.
  by rewrite (constructor_success _ _ st Hf (cell_from_lengths_ok l _ Hx Hy Hz)).
Qed.





End SetAngles.

Section RejectedAngles.
Local Open Scope R_scope.

(** Degenerate angles are refused on a triclinic cell too: the call fails
    and the cell keeps its matrix. *)
Lemma set_angles_degenerate_refused (st : State) (p : positive) (m : Matrix3D) (a : Vector3D) :
  cell_at (Some p) st = Some (unit_cell m TRICLINIC) -> degenerate a = true ->
  chfl_cell_set_angles (Some p) a st
  = (CHFL_GENERIC_ERROR, mk_state "angles do not describe a cell" (world st)).
Proof.
  intros Hc Hd. unfold chfl_cell_set_angles.
  rewrite (setter_live _ p st _ Hc). unfold set_angles. cbn [shape]. by rewrite Hd.
Qed.

Example degenerate_wide_angle : degenerate (vector3d 200 10 10) = true.
Proof.
  unfold degenerate, le_b. cbn [vx vy vz].
  destruct (Rle_dec 360 (200 + 10 + 10)); [lra|].
  destruct (Rle_dec (200 + 10 + 10) 0); [lra|].
  destruct (Rle_dec 200 0); [lra|].
  destruct (Rle_dec 180 200); [reflexivity | lra].
Qed.

End RejectedAngles.

(** ** The invariant of the shape tag *)

Section Invariant.
Local Open Scope R_scope.

Lemma eq0_true (x : R) : eq0 x = true <-> x = 0.
Proof. unfold eq0. destruct (Req_dec_T x 0); split; intros; auto; discriminate. Qed.

Lemma is_diagonal_b_true (m : Matrix3D) : is_diagonal_b m = true <-> is_diagonal m.
Proof.
  unfold is_diagonal_b, is_diagonal. rewrite !andb_true_iff, !eq0_true. tauto.
Qed.

Lemma orthorhombic_invariant (l : Vector3D) (c : UnitCell) :
  orthorhombic l = Ok c -> cell_invariant c /\ shape c = ORTHORHOMBIC.
Proof.
  unfold orthorhombic. destruct (negative_length l); [discriminate|].
  intros [= <-]. split; [apply diagonal_is_diagonal | reflexivity].
Qed.

Lemma triclinic_invariant (l a : Vector3D) (c : UnitCell) :
  triclinic l a = Ok c -> cell_invariant c /\ shape c = TRICLINIC.
Proof.
  unfold triclinic. destruct (negative_length l); [discriminate|].
  destruct (degenerate a); [discriminate|].
  intros [= <-]. split; reflexivity.
Qed.

Lemma rescale_keeps_zero (len : R) (v : Vector3D) :
  (vx v = 0 -> vx (rescale len v) = 0) /\
  (vy v = 0 -> vy (rescale len v) = 0) /\
  (vz v = 0 -> vz (rescale len v) = 0).
Proof.
  unfold rescale, scale. cbn [vx vy vz]. repeat split; intros ->; ring.
Qed.

Lemma set_lengths_invariant (c c' : UnitCell) (l : Vector3D) :
  cell_invariant c -> set_lengths c l = Ok c' -> cell_invariant c' /\ shape c' = shape c.
Proof.
  unfold set_lengths. destruct (negative_length l); [discriminate|].
  intros Hinv [= <-]. split; [|reflexivity].
  unfold cell_invariant in *. cbn [shape matrix]. destruct (shape c); try exact I.
  destruct Hinv as (H1 & H2 & H3 & H4 & H5 & H6).
  unfold is_diagonal. cbn [row_a row_b row_c].
  pose proof (rescale_keeps_zero (vx l) (row_a (matrix c))) as (_ & ? & ?).
  pose proof (rescale_keeps_zero (vy l) (row_b (matrix c))) as (? & _ & ?).
  pose proof (rescale_keeps_zero (vz l) (row_c (matrix c))) as (? & ? & _).
  repeat split; auto.
Qed.

Lemma set_angles_invariant (c c' : UnitCell) (a : Vector3D) :
  set_angles c a = Ok c' -> cell_invariant c' /\ shape c' = TRICLINIC /\ shape c = TRICLINIC.
Proof.
  unfold set_angles. destruct (shape c); try discriminate.
  destruct (degenerate a); [discriminate|].
  intros [= <-]. repeat split.
Qed.

Lemma set_shape_invariant (c c' : UnitCell) (s : CellShape) :
  set_shape c s = Ok c' -> cell_invariant c' /\ shape c' = s /\ matrix c' = matrix c.
Proof.
  unfold set_shape. destruct s.
  - destruct (is_diagonal_b (matrix c)) eqn:Hd; [|discriminate].
    intros [= <-]. split; [|split; reflexivity]. by apply is_diagonal_b_true.
  - intros [= <-]. repeat split.
  - intros [= <-]. repeat split.
Qed.

(** Rescaling a diagonal matrix with positive entries gives the diagonal
    matrix of the new lengths. *)
Lemma set_lengths_diagonal (d l : Vector3D) (s : CellShape) :
  0 < vx d -> 0 < vy d -> 0 < vz d ->
  0 <= vx l -> 0 <= vy l -> 0 <= vz l ->
  set_lengths (unit_cell (diagonal d) s) l = Ok (unit_cell (diagonal l) s).
Proof.
  intros Hdx Hdy Hdz Hx Hy Hz. unfold set_lengths.
  rewrite (negative_length_false l Hx Hy Hz). cbn [matrix shape diagonal row_a row_b row_c].
  unfold rescale, scale. rewrite norm_x, norm_y, norm_z. cbn [vx vy vz].
  rewrite !Rabs_right by lra.
  do 2 f_equal. unfold diagonal.
  f_equal; apply vector3d_eq; cbn [vx vy vz]; field; lra.
Qed.

End Invariant.

(** ** The test cases of tests/capi/cell.cpp on the model *)

Section TestCases.
Local Open Scope R_scope.

(** SECTION Volume: lengths (2, 3, 4) give the volume 2 * 3 * 4. *)
Example test_volume :
  let cell := (chfl_cell (vector3d 2 3 4) initial_state).1 in
  let st := (chfl_cell (vector3d 2 3 4) initial_state).2 in
  (chfl_cell_volume cell st).1 = (CHFL_SUCCESS, Some (2 * 3 * 4)).
Proof.
  cbv zeta. rewrite chfl_cell_ok by (first [reflexivity | cbn [vx vy vz]; lra]).
  cbn [fst snd]. unfold chfl_cell_volume.
  rewrite (getter_live volume _ _ _ (cell_at_with_cell_same _ _ _)). cbn [fst].
  unfold volume. cbn [shape matrix]. by rewrite determinant_diagonal.
Qed.

(** SECTION Matrix: lengths (10, 20, 30) give a matrix that [approx_eq]
    accepts against the expected diagonal one. *)
Example test_matrix :
  let cell := (chfl_cell (vector3d 10 20 30) initial_state).1 in
  let st := (chfl_cell (vector3d 10 20 30) initial_state).2 in
  let expected := matrix3d (vector3d 10 0 0) (vector3d 0 20 0) (vector3d 0 0 30) in
  exists m, (chfl_cell_matrix cell st).1 = (CHFL_SUCCESS, Some m) /\ approx_eq expected m = true.
Proof.
  cbv zeta. rewrite chfl_cell_ok by (first [reflexivity | cbn [vx vy vz]; lra]).
  cbn [fst snd]. unfold chfl_cell_matrix.
  rewrite (getter_live matrix _ _ _ (cell_at_with_cell_same _ _ _)). cbn [fst].
  eexists. split; [reflexivity|].
  unfold approx_eq. cbn [matrix diagonal row_a row_b row_c vx vy vz].
  by rewrite !approx_eq_row_refl.
Qed.

(** SECTION copy: the volume of the copy stays 8 while the original goes
    from 8 to 27. *)
Example test_copy :
  let cell := (chfl_cell (vector3d 2 2 2) initial_state).1 in
  let st := (chfl_cell (vector3d 2 2 2) initial_state).2 in
  let copy := (chfl_cell_copy cell st).1 in
  let st1 := (chfl_cell_copy cell st).2 in
  let st2 := (chfl_cell_set_lengths cell (vector3d 3 3 3) st1).2 in
  (chfl_cell_volume cell st1).1 = (CHFL_SUCCESS, Some 8) /\
  (chfl_cell_volume copy st1).1 = (CHFL_SUCCESS, Some 8) /\
  (chfl_cell_set_lengths cell (vector3d 3 3 3) st1).1 = CHFL_SUCCESS /\
  (chfl_cell_volume cell st2).1 = (CHFL_SUCCESS, Some 27) /\
  (chfl_cell_volume copy st2).1 = (CHFL_SUCCESS, Some 8).
Proof.
  cbv zeta. rewrite chfl_cell_ok by (first [reflexivity | cbn [vx vy vz]; lra]).
  cbn [fst snd].
  set (p := fresh (dom (heap (world initial_state)))).
  set (c := unit_cell (diagonal (vector3d 2 2 2)) ORTHORHOMBIC).
  set (st := with_cell p c initial_state).
  assert (Hp : cell_at (Some p) st = Some c) by apply cell_at_with_cell_same.
  destruct (chfl_cell_copy_live p st c Hp eq_refl) as [Hcopy Hne]. cbv zeta in Hcopy, Hne.
  rewrite !Hcopy. cbn [fst snd].
  set (q := fresh (dom (heap (world st)))) in *.
  set (st1 := with_cell q c st).
  assert (Hq1 : cell_at (Some q) st1 = Some c) by apply cell_at_with_cell_same.
  assert (Hp1 : cell_at (Some p) st1 = Some c).
  { unfold st1. rewrite cell_at_with_cell. by destruct (decide (q = p)). }
  assert (Hset : chfl_cell_set_lengths (Some p) (vector3d 3 3 3) st1
                 = (CHFL_SUCCESS, with_cell p (unit_cell (diagonal (vector3d 3 3 3)) ORTHORHOMBIC) st1)).
  { unfold chfl_cell_set_lengths. rewrite (setter_live _ p st1 c Hp1). unfold c.
    rewrite set_lengths_diagonal; [reflexivity | cbn [vx vy vz]; lra ..]. }
  rewrite !Hset. cbn [fst snd].
  assert (Hq2 : cell_at (Some q)
                  (with_cell p (unit_cell (diagonal (vector3d 3 3 3)) ORTHORHOMBIC) st1) = Some c).
  { rewrite cell_at_with_cell. by destruct (decide (p = q)); [congruence|]. }
  unfold chfl_cell_volume.
  rewrite (getter_live volume _ _ _ Hp1), (getter_live volume _ _ _ Hq1),
          (getter_live volume _ _ _ Hq2),
          (getter_live volume _ _ _ (cell_at_with_cell_same p _ st1)).
  cbn [fst]. unfold volume, c. cbn [shape matrix]. rewrite !determinant_diagonal.
  cbn [vx vy vz]. repeat split; do 2 f_equal; lra.
Qed.

(** SECTION Shape: orthorhombic, then triclinic, then null lengths and
    infinite. *)
Example test_shape :
  let cell := (chfl_cell (vector3d 2 3 4) initial_state).1 in
  let st := (chfl_cell (vector3d 2 3 4) initial_state).2 in
  let st1 := (chfl_cell_set_shape cell TRICLINIC st).2 in
  let st2 := (chfl_cell_set_lengths cell (vector3d 0 0 0) st1).2 in
  let st3 := (chfl_cell_set_shape cell INFINITE st2).2 in
  (chfl_cell_shape cell st).1 = (CHFL_SUCCESS, Some ORTHORHOMBIC) /\
  (chfl_cell_set_shape cell TRICLINIC st).1 = CHFL_SUCCESS /\
  (chfl_cell_shape cell st1).1 = (CHFL_SUCCESS, Some TRICLINIC) /\
  (chfl_cell_set_lengths cell (vector3d 0 0 0) st1).1 = CHFL_SUCCESS /\
  (chfl_cell_set_shape cell INFINITE st2).1 = CHFL_SUCCESS /\
  (chfl_cell_shape cell st3).1 = (CHFL_SUCCESS, Some INFINITE).
Proof.
  cbv zeta. rewrite chfl_cell_ok by (first [reflexivity | cbn [vx vy vz]; lra]).
  cbn [fst snd].
  set (p := fresh (dom (heap (world initial_state)))).
  set (c := unit_cell (diagonal (vector3d 2 3 4)) ORTHORHOMBIC).
  set (st := with_cell p c initial_state).
  assert (Hp : cell_at (Some p) st = Some c) by apply cell_at_with_cell_same.
  assert (E1 : chfl_cell_set_shape (Some p) TRICLINIC st
               = (CHFL_SUCCESS, with_cell p (unit_cell (diagonal (vector3d 2 3 4)) TRICLINIC) st)).
  { unfold chfl_cell_set_shape. by rewrite (setter_live _ p st c Hp). }
  rewrite !E1. cbn [fst snd].
  set (st1 := with_cell p (unit_cell (diagonal (vector3d 2 3 4)) TRICLINIC) st).
  assert (E2 : chfl_cell_set_lengths (Some p) (vector3d 0 0 0) st1
               = (CHFL_SUCCESS, with_cell p (unit_cell (diagonal (vector3d 0 0 0)) TRICLINIC) st1)).
  { unfold chfl_cell_set_lengths.
    rewrite (setter_live _ p st1 _ (cell_at_with_cell_same p _ st)).
    rewrite set_lengths_diagonal; [reflexivity | cbn [vx vy vz]; lra ..]. }
  rewrite !E2. cbn [fst snd].
  set (st2 := with_cell p (unit_cell (diagonal (vector3d 0 0 0)) TRICLINIC) st1).
  assert (E3 : chfl_cell_set_shape (Some p) INFINITE st2
               = (CHFL_SUCCESS, with_cell p (unit_cell (diagonal (vector3d 0 0 0)) INFINITE) st2)).
  { unfold chfl_cell_set_shape.
    by rewrite (setter_live _ p st2 _ (cell_at_with_cell_same p _ st1)). }
  rewrite !E3. cbn [fst snd].
  assert (H1 : cell_at (Some p) st1 = Some (unit_cell (diagonal (vector3d 2 3 4)) TRICLINIC))
    by apply cell_at_with_cell_same.
  unfold chfl_cell_shape.
  rewrite (getter_live shape _ _ _ Hp), (getter_live shape _ _ _ H1),
          (getter_live shape _ _ _ (cell_at_with_cell_same p _ st2)).
  repeat split.
Qed.

End TestCases.

Section TriclinicReadBack.
Local Open Scope R_scope.

(** The lengths of the lattice built from positive lengths and realisable
    angles are the lengths it was built from. *)
Lemma lengths_lattice (l a : Vector3D) (s : CellShape) :
  0 < vx l -> 0 < vy l -> 0 < vz l -> 0 < vz a < 180 -> 0 <= gram a ->
  lengths (unit_cell (lattice l a) s) = l.
Proof.
  intros Hla Hlb Hlc Hg Hgram.
  pose proof (sin_radians_pos _ Hg) as Hsg.
  assert (Hunit : sin (radians (vz a)) * sin (radians (vz a))
                  + cos (radians (vz a)) * cos (radians (vz a)) = 1).
  { apply (sin2_cos2 (radians (vz a))). }
  destruct (lattice_products (vx l) (vy l) (vz l)
              (cos (radians (vx a))) (cos (radians (vy a))) (cos (radians (vz a)))
              (sin (radians (vz a))) Hla Hlb Hlc Hsg Hunit Hgram)
    as (HnA & HnB & HnC & _).
  unfold lengths, lattice. cbn [matrix row_a row_b row_c].
  rewrite HnA, HnB, HnC. by destruct l.
Qed.

(** SECTION Constructors, second cell: lengths (20, 21, 22) and angles
    (90, 100, 120) read back as they were given, and the shape is
    triclinic. *)
Example test_constructors_triclinic :
  let l := vector3d 20 21 22 in
  let a := vector3d 90 100 120 in
  let cell := (chfl_cell_triclinic l a initial_state).1 in
  let st := (chfl_cell_triclinic l a initial_state).2 in
  cell <> nullptr /\
  (chfl_cell_lengths cell st).1 = (CHFL_SUCCESS, Some l) /\
  (chfl_cell_angles cell st).1 = (CHFL_SUCCESS, Some a) /\
  (chfl_cell_shape cell st).1 = (CHFL_SUCCESS, Some TRICLINIC).
Proof.
  cbv zeta.
  assert (Hd : degenerate (vector3d 90 100 120) = false)
    by (apply degenerate_false; cbn [vx vy vz]; lra).
  assert (Hgram : 0 <= gram (vector3d 90 100 120))
    by (apply gram_mid; cbn [vx vy vz]; lra).
  assert (Hb : cell_from_lengths_angles (vector3d 20 21 22) (vector3d 90 100 120)
                 (world initial_state)
               = (Ok (ObjCell (unit_cell (lattice (vector3d 20 21 22) (vector3d 90 100 120))
                                         TRICLINIC)), world initial_state)).
  { unfold cell_from_lengths_angles, mbind, comp_bind, lift, triclinic.
    rewrite negative_length_false by (cbn [vx vy vz]; lra). by rewrite Hd. }
  unfold chfl_cell_triclinic.
  rewrite (constructor_success _ _ initial_state eq_refl Hb). cbn [fst snd].
  split; [discriminate|].
  pose proof (cell_at_stored initial_state (fresh (dom (heap (world initial_state))))
                (unit_cell (lattice (vector3d 20 21 22) (vector3d 90 100 120)) TRICLINIC)) as Hc.
  unfold chfl_cell_lengths, chfl_cell_angles, chfl_cell_shape.
  rewrite (getter_live lengths _ _ _ Hc), (getter_live angles _ _ _ Hc),
          (getter_live shape _ _ _ Hc). cbn [fst].
  rewrite lengths_lattice, angles_lattice by (first [exact Hgram | cbn [vx vy vz]; lra]).
  repeat split.
Qed.

End TriclinicReadBack.

Section WrapTest.
Local Open Scope R_scope.

(** SECTION Wrap: on the cell of lengths (2, 3, 4) the vector
    (0.8, 1.7, -6) is rewritten to (0.8, -1.3, 2). *)
Example test_wrap :
  let cell := (chfl_cell (vector3d 2 3 4) initial_state).1 in
  let st := (chfl_cell (vector3d 2 3 4) initial_state).2 in
  (chfl_cell_wrap cell (vector3d 0.8 1.7 (-6)) st).1
  = (CHFL_SUCCESS, Some (vector3d 0.8 (-1.3) 2)).
Proof.
  cbv zeta. rewrite chfl_cell_ok by (first [reflexivity | cbn [vx vy vz]; lra]).
  cbn [fst snd]. unfold chfl_cell_wrap.
  rewrite (getter_live (fun c => wrap c (vector3d 0.8 1.7 (-6))) _ _ _
             (cell_at_with_cell_same _ _ _)).
  cbn [fst]. rewrite wrap_diagonal_234. cbn [vx vy vz].
  by rewrite wrap_test_x, wrap_test_y, wrap_test_z.
Qed.

End WrapTest.

(** ** The wrap test and the ties on IEEE doubles *)

Section Binary64Runs.
Local Open Scope float_scope.

Example binary64_round_ties :
  Binary64.round 0.5 = 1 /\ Binary64.round (-0.5) = -1 /\
  Binary64.round 1.5 = 2 /\ Binary64.round (-1.5) = -2 /\
  Binary64.round 0.49999999999999994 = 0.
Proof. repeat split; vm_compute; reflexivity. Qed.

(** SECTION Wrap with doubles: the three comparisons of the test hold bit
    for bit. *)
Example binary64_wrap_test :
  Binary64.wrap_orthorhombic (2, 3, 4) (0.8, 1.7, -6) = (0.8, -1.3, 2).
Proof. vm_compute. reflexivity. Qed.

(** A positive tie lands on -0.5 in fractional terms. *)
Example binary64_wrap_tie :
  Binary64.wrap_orthorhombic (2, 3, 4) (0.8, 1.7, 6) = (0.8, -1.3, -2) /\
  (Binary64.fractional_orthorhombic (2, 3, 4) (0.8, -1.3, -2)).2 = -0.5.
Proof. split; vm_compute; reflexivity. Qed.

(** Wrapping the result of the wrap test once more moves z from 2 to -2. *)
Example binary64_wrap_twice :
  Binary64.wrap_orthorhombic (2, 3, 4)
    (Binary64.wrap_orthorhombic (2, 3, 4) (0.8, 1.7, -6)) = (0.8, -1.3, -2).
Proof. vm_compute. reflexivity. Qed.

End Binary64Runs.

(** * Further properties of the code *)

(** ** The lookup table as a search in source order *)

Section StrerrorLookup.
Variable code_of : chfl_status -> Z.

(** The map built from the initializer list answers like a search of the
    list from its head. *)
Lemma ERROR_MESSAGES_lookup_find (code : Z) :
  Strerror.ERROR_MESSAGES code_of !! code
  = Strerror.message_of <$> Strerror.first_with_code code_of code.
Proof.
  unfold Strerror.ERROR_MESSAGES, Strerror.ERROR_MESSAGES_init,
    Strerror.first_with_code, all_statuses.
  cbn [list_to_map foldr fst snd uncurry find].
  repeat match goal with
         | |- context [Z.eqb ?a code] =>
             let E := fresh "E" in
             destruct (Z.eqb_spec a code) as [E | E];
             [ by rewrite E, lookup_insert_eq | rewrite lookup_insert_ne by exact E ]
         end.
  apply lookup_empty.
Qed.

Lemma first_with_code_injective (s : chfl_status) :
  (forall s1 s2, code_of s1 = code_of s2 -> s1 = s2) ->
  Strerror.first_with_code code_of (code_of s) = Some s.
Proof.
  intros Hinj. unfold Strerror.first_with_code, all_statuses. cbn [find].
  repeat match goal with
         | |- context [Z.eqb ?a ?b] =>
             let E := fresh "E" in
             destruct (Z.eqb_spec a b) as [E | E];
             [ apply Hinj in E; subst; reflexivity | ]
         end.
  destruct s; congruence.
Qed.

Lemma message_of_injective (s1 s2 : chfl_status) :
  Strerror.message_of s1 = Strerror.message_of s2 -> s1 = s2.
Proof. destruct s1, s2; simpl; intros H; first [reflexivity | discriminate H]. Qed.

End StrerrorLookup.

(** X1: whatever integers the enumerators stand for and whatever the code,
    [chfl_strerror] returns the text of the first entry of the initializer
    list whose key is the code, and the empty string when there is none: a
    key that occurs twice keeps the text listed first. *)
Theorem chfl_strerror_first_match (code_of : chfl_status -> Z) (code : Z) :
  Strerror.chfl_strerror code_of code =
  match Strerror.first_with_code code_of code with
  | Some s => Strerror.message_of s
  | None => ""%string
  end.
Proof.
  unfold Strerror.chfl_strerror. rewrite ERROR_MESSAGES_lookup_find.
  by destruct (Strerror.first_with_code code_of code).
Qed.

Lemma source_order_injective (s1 s2 : chfl_status) :
  Strerror.source_order s1 = Strerror.source_order s2 -> s1 = s2.
Proof. destruct s1, s2; simpl; intros H; first [reflexivity | discriminate H]. Qed.

(** The numbering 0..6 is injective, and the code of [CHFL_FILE_ERROR] is
    described by the text listed for it. *)
Lemma chfl_strerror_injective_numbering_witness :
  Strerror.chfl_strerror Strerror.source_order 2 = "system error while reading a file"%string.
Proof.
  apply (chfl_strerror_injective_numbering Strerror.source_order CHFL_FILE_ERROR).
  exact source_order_injective.
Defined.

(** X3: when the enumerators have distinct values, two different status
    codes have different descriptions: the seven texts tell the seven
    statuses apart. *)
Theorem chfl_strerror_distinct_descriptions (code_of : chfl_status -> Z)
    (s1 s2 : chfl_status) :
  (forall a b, code_of a = code_of b -> a = b) ->
  s1 <> s2 ->
  Strerror.chfl_strerror code_of (code_of s1) <> Strerror.chfl_strerror code_of (code_of s2).
Proof.
  intros Hinj Hne. unfold Strerror.chfl_strerror.
  rewrite !ERROR_MESSAGES_lookup_find, !first_with_code_injective by exact Hinj.
  simpl. intros H. apply Hne. by apply message_of_injective.
Qed.

Lemma chfl_strerror_distinct_descriptions_witness :
  Strerror.chfl_strerror Strerror.source_order 1 <> Strerror.chfl_strerror Strerror.source_order 2.
Proof.
  apply (chfl_strerror_distinct_descriptions Strerror.source_order
           CHFL_MEMORY_ERROR CHFL_FILE_ERROR).
  - exact source_order_injective.
  - discriminate.
Defined.

(** ** Clearing the last error between calls *)

Lemma run_app (calls1 calls2 : list entry) (st : State) :
  run (calls1 ++ calls2) st =
  ((run calls1 st).1 ++ (run calls2 (run calls1 st).2).1, (run calls2 (run calls1 st).2).2).
Proof.
  revert st. induction calls1 as [|e rest IH]; intros st.
  - simpl. by destruct (run calls2 st).
  - rewrite <- app_comm_cons, !run_cons, IH. reflexivity.
Qed.

(** X4: a call of [chfl_clear_errors] in the middle of a sequence makes
    [chfl_last_error] forget every failure before it: after the calls that
    follow, the message is that of the most recent failure among them, and
    the empty string when none of them failed. *)
Theorem clear_forgets_earlier_failures (calls : list entry) (bodies : list (comp unit))
    (st : State) :
  let cleared := (chfl_clear_errors (run calls st).2).2 in
  chfl_last_error (run (calls ++ ClearErrors :: (Wrapped <$> bodies)) st).2 =
  default ""%string (most_recent_failure (run (Wrapped <$> bodies) cleared).1).
Proof.
  cbv zeta. rewrite run_app. cbn [snd]. rewrite run_cons. cbn [snd].
  unfold chfl_last_error.
  change (boundary (body_of ClearErrors) (run calls st).2).2
    with (chfl_clear_errors (run calls st).2).2.
  rewrite run_last_error. rewrite foldl_after_event_wrapped.
  - reflexivity.
  - rewrite run_trace_entries. apply forallb_is_wrapped.
Qed.

(** ** The exception hierarchy of Error.hpp and the order of handlers *)

Lemma find_app_first {A : Type} (f : A -> bool) (l1 l2 : list A) :
  find f (l1 ++ l2) = match find f l1 with Some x => Some x | None => find f l2 end.
Proof.
  induction l1 as [|x l1 IH]; simpl; [reflexivity|]. by destruct (f x).
Qed.

Lemma catches_library_base (b : handler_class) (c : exception_class) :
  catches b (Library Error) = true -> catches b (Library c) = true.
Proof. destruct b as [| | []], c; vm_compute; congruence. Qed.

(** X5: a handler catches a thrown library exception exactly when it names
    the class thrown, [Error], [std::runtime_error] or [std::exception]; and
    a handler for one of the four derived classes catches nothing but that
    class, so no derived class is caught by a handler for a sibling. *)
Theorem library_exception_handlers (h thrown : handler_class) (c d : exception_class) :
  (catches h (Library c) = true <->
   h = Library c \/ h = Library Error \/ h = StdRuntimeError \/ h = StdException) /\
  (d <> Error -> (catches (Library d) thrown = true <-> thrown = Library d)).
Proof.
  split.
  - destruct h as [| | []], c; vm_compute; split; intros H;
      first [ discriminate H | tauto | (destruct H as [H | [H | [H | H]]]; congruence) ].
  - intros Hd. destruct d; [congruence | | | |];
      destruct thrown as [| | []]; vm_compute; split; intros H;
      first [ discriminate H | reflexivity | congruence ].
Qed.

Lemma library_exception_handlers_witness :
  (catches (Library Error) (Library PluginError) = true <->
   Library Error = Library PluginError \/ Library Error = Library Error \/
   Library Error = StdRuntimeError \/ Library Error = StdException) /\
  (catches (Library FileError) (Library MemoryError) = true <->
   Library MemoryError = Library FileError).
Proof.
  destruct (library_exception_handlers (Library Error) (Library MemoryError)
              PluginError FileError) as [H1 H2].
  split; [exact H1 | apply H2; discriminate].
Defined.

(** X6: once a handler for [Error] or for one of its standard bases is
    written, every library exception is handled, and by that handler or by
    one written before it: a handler written after it never runs for a
    library exception. *)
Theorem handlers_after_a_base_never_run (pre post : list handler_class)
    (b : handler_class) (c : exception_class) :
  catches b (Library Error) = true ->
  select_handler (pre ++ b :: post) (Library c) =
  Some (default b (select_handler pre (Library c))).
Proof.
  intros Hb. unfold select_handler. rewrite find_app_first.
  destruct (find (fun h => catches h (Library c)) pre) as [h|]; [reflexivity|].
  cbn [find]. by rewrite (catches_library_base b c Hb).
Qed.

Lemma handlers_after_a_base_never_run_witness :
  select_handler [Library FileError; Library MemoryError; Library Error; Library FormatError]
                 (Library FormatError) = Some (Library Error) /\
  select_handler [StdException; Library Error] (Library FileError) = Some StdException.
Proof.
  split.
  - apply (handlers_after_a_base_never_run [Library FileError; Library MemoryError]
             [Library FormatError] (Library Error) FormatError). reflexivity.
  - apply (handlers_after_a_base_never_run [] [Library Error] StdException FileError).
    reflexivity.
Defined.

(** ** The comparison of matrices in the tests *)

Section ApproxEq.
Local Open Scope R_scope.

Lemma lt_b_abs_sym (x y tol : R) : lt_b (Rabs (x - y)) tol = lt_b (Rabs (y - x)) tol.
Proof. by rewrite Rabs_minus_sym. Qed.

Lemma approx_eq_row_sym (a b : Vector3D) : approx_eq_row a b = approx_eq_row b a.
Proof.
  unfold approx_eq_row.
  by rewrite (lt_b_abs_sym (vx a)), (lt_b_abs_sym (vy a)), (lt_b_abs_sym (vz a)).
Qed.

Lemma approx_eq_true (A B : Matrix3D) : approx_eq A B = true <-> entries_within eps A B.
Proof.
  unfold approx_eq, entries_within, row_within.
  rewrite !andb_true_iff, !approx_eq_row_true. tauto.
Qed.

Lemma abs_chain (x y z tol : R) :
  Rabs (x - y) < tol -> Rabs (y - z) < tol -> Rabs (x - z) < 2 * tol.
Proof.
  intros H1 H2. replace (x - z) with ((x - y) + (y - z)) by lra.
  pose proof (Rabs_triang (x - y) (y - z)). lra.
Qed.

Lemma row_within_chain (a b c : Vector3D) (tol : R) :
  row_within tol a b -> row_within tol b c -> row_within (2 * tol) a c.
Proof.
  intros (H1 & H2 & H3) (K1 & K2 & K3). repeat split; eapply abs_chain; eassumption.
Qed.

(** X7: [approx_eq] does not depend on the order of its two arguments, and
    accepts a matrix against itself. *)
Theorem approx_eq_symmetric_reflexive (A B : Matrix3D) :
  approx_eq A B = approx_eq B A /\ approx_eq A A = true.
Proof.
  split.
  - unfold approx_eq.
    by rewrite (approx_eq_row_sym (row_a A)), (approx_eq_row_sym (row_b A)),
               (approx_eq_row_sym (row_c A)).
  - unfold approx_eq. by rewrite !approx_eq_row_refl.
Qed.

(** X8: two comparisons that [approx_eq] accepts chain only with twice the
    tolerance: when it accepts A against B and B against C, every entry of A
    is closer than 2e-10 to the entry of C. *)
Theorem approx_eq_chain (A B C : Matrix3D) :
  approx_eq A B = true -> approx_eq B C = true -> entries_within (2 * eps) A C.
Proof.
  rewrite !approx_eq_true. intros (H1 & H2 & H3) (K1 & K2 & K3).
  repeat split; eapply abs_chain;
    first [ apply H1 | apply H2 | apply H3 | apply K1 | apply K2 | apply K3 ].
Qed.

Lemma abs_small (x tol : R) : - tol < x < tol -> Rabs x < tol.
Proof. intros [H1 H2]. apply Rabs_def1; lra. Qed.

Lemma approx_eq_row_near (a b : Vector3D) :
  - eps < vx a - vx b < eps -> - eps < vy a - vy b < eps -> - eps < vz a - vz b < eps ->
  approx_eq_row a b = true.
Proof.
  intros Hx Hy Hz. apply approx_eq_row_true. repeat split; by apply abs_small.
Qed.

Lemma approx_eq_row_far (a b : Vector3D) : eps <= vx b - vx a -> approx_eq_row a b = false.
Proof.
  intros H. apply not_true_is_false. rewrite approx_eq_row_true. intros (Hx & _).
  apply Rabs_def2 in Hx. lra.
Qed.

Lemma approx_eq_chain_witness :
  let A := diagonal (vector3d 0 0 0) in
  let B := diagonal (vector3d 0.6e-10 0 0) in
  let C := diagonal (vector3d 1.2e-10 0 0) in
  entries_within (2 * eps) A C.
Proof.
  apply (approx_eq_chain (diagonal (vector3d 0 0 0)) (diagonal (vector3d 0.6e-10 0 0))
                         (diagonal (vector3d 1.2e-10 0 0)));
    unfold approx_eq; cbn [diagonal row_a row_b row_c vx vy vz];
    rewrite !approx_eq_row_near; try reflexivity;
    unfold eps; cbn [vx vy vz]; lra.
Defined.

(** X9: [approx_eq] is not transitive: it accepts the null matrix against
    one whose first entry is 0.6e-10, and that one against one whose first
    entry is 1.2e-10, but not the null matrix against the last. *)
Theorem approx_eq_not_transitive :
  exists A B C : Matrix3D,
    approx_eq A B = true /\ approx_eq B C = true /\ approx_eq A C = false.
Proof.
  exists (diagonal (vector3d 0 0 0)), (diagonal (vector3d 0.6e-10 0 0)),
         (diagonal (vector3d 1.2e-10 0 0)).
  unfold approx_eq; cbn [diagonal row_a row_b row_c].
  repeat split.
  - rewrite !approx_eq_row_near; try reflexivity; unfold eps; cbn [vx vy vz]; lra.
  - rewrite !approx_eq_row_near; try reflexivity; unfold eps; cbn [vx vy vz]; lra.
  - rewrite approx_eq_row_far; [reflexivity|]. unfold eps; cbn [vx vy vz]. lra.
Qed.

End ApproxEq.

(** ** What the test sections check, for every input

    The entry points are the ones modelled above from the spec. *)

Section CellTests.
Local Open Scope R_scope.

(** SECTION Volume for every cell: the volume of a cell constructed
    from three non-negative lengths is their product. *)
Theorem orthorhombic_volume_is_product (st : State) (l : Vector3D) :
  0 <= vx l -> 0 <= vy l -> 0 <= vz l -> fail_next (world st) = false ->
  let cell := (chfl_cell l st).1 in
  let st' := (chfl_cell l st).2 in
  chfl_cell_volume cell st' = (CHFL_SUCCESS, Some (vx l * vy l * vz l), st').
Proof.
  intros Hx Hy Hz Hf. cbv zeta. rewrite (chfl_cell_ok st l Hx Hy Hz Hf). cbn [fst snd].
  unfold chfl_cell_volume.
  rewrite (getter_live volume _ _ _ (cell_at_with_cell_same _ _ _)).
  unfold volume. cbn [shape matrix]. by rewrite determinant_diagonal.
Qed.

Lemma orthorhombic_volume_is_product_witness :
  let cell := (chfl_cell (vector3d 2 3 4) initial_state).1 in
  let st' := (chfl_cell (vector3d 2 3 4) initial_state).2 in
  chfl_cell_volume cell st' = (CHFL_SUCCESS, Some (2 * 3 * 4), st').
Proof.
  apply (orthorhombic_volume_is_product initial_state (vector3d 2 3 4));
    first [reflexivity | cbn [vx vy vz]; lra].
Defined.

(** SECTION Length for every cell: on a live orthorhombic cell with
    positive lengths, [chfl_cell_set_lengths] with non-negative lengths
    succeeds and leaves the last error alone; the new lengths read back, the
    angles still read (90, 90, 90), the shape is still orthorhombic and the
    volume is the product of the new lengths. *)
Theorem set_lengths_readback (st : State) (p : positive) (d l : Vector3D) :
  cell_at (Some p) st = Some (unit_cell (diagonal d) ORTHORHOMBIC) ->
  0 < vx d -> 0 < vy d -> 0 < vz d ->
  0 <= vx l -> 0 <= vy l -> 0 <= vz l ->
  let st' := (chfl_cell_set_lengths (Some p) l st).2 in
  (chfl_cell_set_lengths (Some p) l st).1 = CHFL_SUCCESS /\
  chfl_last_error st' = chfl_last_error st /\
  chfl_cell_lengths (Some p) st' = (CHFL_SUCCESS, Some l, st') /\
  chfl_cell_angles (Some p) st' = (CHFL_SUCCESS, Some (vector3d 90 90 90), st') /\
  chfl_cell_shape (Some p) st' = (CHFL_SUCCESS, Some ORTHORHOMBIC, st') /\
  chfl_cell_volume (Some p) st' = (CHFL_SUCCESS, Some (vx l * vy l * vz l), st').
Proof.
  intros Hc Hdx Hdy Hdz Hx Hy Hz. cbv zeta. unfold chfl_cell_set_lengths.
  rewrite (setter_live _ p st _ Hc), set_lengths_diagonal by assumption. cbn [fst snd].
  pose proof (cell_at_with_cell_same p (unit_cell (diagonal l) ORTHORHOMBIC) st) as Hc'.
  unfold chfl_cell_lengths, chfl_cell_angles, chfl_cell_shape, chfl_cell_volume.
  rewrite (getter_live lengths _ _ _ Hc'), (getter_live angles _ _ _ Hc'),
          (getter_live shape _ _ _ Hc'), (getter_live volume _ _ _ Hc').
  rewrite lengths_diagonal_nonneg, angles_diagonal by assumption.
  unfold volume. cbn [shape matrix]. rewrite determinant_diagonal.
  repeat split.
Qed.

Lemma set_lengths_readback_witness :
  let cell := (chfl_cell (vector3d 2 3 4) initial_state).1 in
  let st := (chfl_cell (vector3d 2 3 4) initial_state).2 in
  let l := vector3d 10 20 30 in
  let st' := (chfl_cell_set_lengths cell l st).2 in
  (chfl_cell_set_lengths cell l st).1 = CHFL_SUCCESS /\
  chfl_last_error st' = chfl_last_error st /\
  chfl_cell_lengths cell st' = (CHFL_SUCCESS, Some l, st') /\
  chfl_cell_angles cell st' = (CHFL_SUCCESS, Some (vector3d 90 90 90), st') /\
  chfl_cell_shape cell st' = (CHFL_SUCCESS, Some ORTHORHOMBIC, st') /\
  chfl_cell_volume cell st' = (CHFL_SUCCESS, Some (10 * 20 * 30), st').
Proof.
  cbv zeta. rewrite chfl_cell_ok by (first [reflexivity | cbn [vx vy vz]; lra]).
  cbn [fst snd].
  apply (set_lengths_readback _ _ (vector3d 2 3 4) (vector3d 10 20 30));
    first [apply cell_at_with_cell_same | cbn [vx vy vz]; lra].
Defined.

Lemma with_cell_restore (p : positive) (c c' : UnitCell) (st : State) :
  cell_at (Some p) st = Some c -> with_cell p c (with_cell p c' st) = st.
Proof.
  intros Hc. apply cell_at_heap in Hc.
  unfold with_cell. cbn [CAPI_LAST_ERROR world heap set_heap logger fail_next writable].
  rewrite insert_insert_eq, (insert_id _ _ _ Hc).
  destruct st as [msg [lg hp fl wr]]. reflexivity.
Qed.

(** SECTION Shape for every cell: on a live orthorhombic cell with a
    diagonal matrix, switching the shape to triclinic succeeds and changes
    the shape alone (matrix, lengths, angles and volume read as before), and
    switching back to orthorhombic succeeds and restores the state the
    sequence started from. *)
Theorem shape_relabel_round_trip (st : State) (p : positive) (c : UnitCell) :
  cell_at (Some p) st = Some c -> shape c = ORTHORHOMBIC -> cell_invariant c ->
  let st1 := (chfl_cell_set_shape (Some p) TRICLINIC st).2 in
  (chfl_cell_set_shape (Some p) TRICLINIC st).1 = CHFL_SUCCESS /\
  chfl_cell_shape (Some p) st1 = (CHFL_SUCCESS, Some TRICLINIC, st1) /\
  chfl_cell_matrix (Some p) st1 = (CHFL_SUCCESS, Some (matrix c), st1) /\
  chfl_cell_lengths (Some p) st1 = (CHFL_SUCCESS, Some (lengths c), st1) /\
  chfl_cell_angles (Some p) st1 = (CHFL_SUCCESS, Some (angles c), st1) /\
  chfl_cell_volume (Some p) st1 = (CHFL_SUCCESS, Some (volume c), st1) /\
  chfl_cell_set_shape (Some p) ORTHORHOMBIC st1 = (CHFL_SUCCESS, st).
Proof.
  intros Hc Hs Hinv. cbv zeta. unfold chfl_cell_set_shape.
  rewrite (setter_live _ p st c Hc). cbn [set_shape fst snd].
  pose proof (cell_at_with_cell_same p (unit_cell (matrix c) TRICLINIC) st) as Hc1.
  unfold chfl_cell_shape, chfl_cell_matrix, chfl_cell_lengths, chfl_cell_angles,
    chfl_cell_volume.
  rewrite (getter_live shape _ _ _ Hc1), (getter_live matrix _ _ _ Hc1),
          (getter_live lengths _ _ _ Hc1), (getter_live angles _ _ _ Hc1),
          (getter_live volume _ _ _ Hc1).
  rewrite (setter_live _ p _ _ Hc1). unfold set_shape. cbn [matrix].
  assert (Hd : is_diagonal_b (matrix c) = true).
  { apply is_diagonal_b_true. unfold cell_invariant in Hinv. by rewrite Hs in Hinv. }
  rewrite Hd.
  assert (Hcell : unit_cell (matrix c) ORTHORHOMBIC = c) by (destruct c; simpl in *; by subst).
  rewrite Hcell, (with_cell_restore p c _ st Hc).
  unfold volume. rewrite Hs. cbn [shape matrix].
  repeat split.
Qed.

Lemma shape_relabel_round_trip_witness :
  let cell := (chfl_cell (vector3d 2 3 4) initial_state).1 in
  let st := (chfl_cell (vector3d 2 3 4) initial_state).2 in
  let st1 := (chfl_cell_set_shape cell TRICLINIC st).2 in
  (chfl_cell_set_shape cell TRICLINIC st).1 = CHFL_SUCCESS /\
  chfl_cell_shape cell st1 = (CHFL_SUCCESS, Some TRICLINIC, st1) /\
  chfl_cell_set_shape cell ORTHORHOMBIC st1 = (CHFL_SUCCESS, st).
Proof.
  cbv zeta. rewrite chfl_cell_ok by (first [reflexivity | cbn [vx vy vz]; lra]).
  cbn [fst snd].
  destruct (shape_relabel_round_trip
              (with_cell (fresh (dom (heap (world initial_state))))
                         (unit_cell (diagonal (vector3d 2 3 4)) ORTHORHOMBIC) initial_state)
              (fresh (dom (heap (world initial_state))))
              (unit_cell (diagonal (vector3d 2 3 4)) ORTHORHOMBIC)
              (cell_at_with_cell_same _ _ _) eq_refl (diagonal_is_diagonal _))
    as (H1 & H2 & _ & _ & _ & _ & H3).
  repeat split; assumption.
Defined.

End CellTests.
